(** * Q1.py: the image editor's session state, crop mapping and undo/redo

    A shallow embedding of [ImageEditorApp] (src/Q1.py).  The widget tree is
    left out; what is kept is every attribute the editing callbacks read or
    write ([original_image], [cropped_image], [resized_image],
    [display_image], the drag corners, [undo_stack], [redo_stack]) and the
    callbacks themselves, written in a small state-and-exception monad so
    that each definition can be read next to the method it embeds.

    Reading conventions.
    - [apply_edge], [push_undo], [undo] and [redo] are taken as methods of the
      class, as their [self] parameter and their use in [setup_ui] and
      [setup_shortcuts] say; the stray indentation of line 176 is ignored.
    - [resize_image] and [save_image] are defined twice with the same body;
      the later definition is the one a Python class keeps.
    - A Python list is a Rocq list in the same order: [append] adds at the
      end, [pop()] removes the last element, [l[-1]] reads it.
    - Python floats are IEEE 754 binary64 values: the Standard Library's
      [spec_float] with [prec = 53] and [emax = 1024].
    - OpenCV and the file dialogs are collaborators: [imread], [cv2_resize],
      [edge_bgr] and [imwrite] are parameters of the model. *)

From Stdlib Require Import String ZArith List Bool Lia.
From Stdlib Require Import Floats.SpecFloat.
Import ListNotations.
Local Open Scope Z_scope.

(** ** Exceptions and results *)

Inductive exn : Type :=
| AttributeError      (* attribute access on None *)
| ZeroDivisionError   (* int / 0 *)
| OverflowError       (* int too large for a float, or int(inf) *)
| ValueError          (* int(nan) *)
| IndexError          (* pop from, or index into, an empty list *)
| Cv2Error.           (* cv2.error raised by an OpenCV call *)

Inductive res (A : Type) : Type :=
| Val (a : A)
| Exc (e : exn).
Arguments Val {A} a.
Arguments Exc {A} e.

Definition res_bind {A B : Type} (r : res A) (k : A -> res B) : res B :=
  match r with
  | Val a => k a
  | Exc e => Exc e
  end.

(** ** Python numbers: int / int, int * float, int(float) *)

Module PyFloat.

Definition prec : Z := 53.
Definition emax : Z := 1024.

(** An int as an exact (possibly unnormalised) binary value [x * 2^0]. *)
Definition Z2SF (x : Z) : spec_float :=
  match x with
  | Z0 => S754_zero false
  | Zpos p => S754_finite false p 0
  | Zneg p => S754_finite true p 0
  end.

(** [float(x)]: the nearest double, ties to even; OverflowError beyond the
    largest finite double. *)
Definition of_int (x : Z) : res spec_float :=
  match binary_normalize prec emax x 0 false with
  | S754_infinity _ => Exc OverflowError
  | f => Val f
  end.

(** [n / d] on two ints: the correctly rounded quotient. *)
Definition truediv (n d : Z) : res spec_float :=
  if d =? 0 then Exc ZeroDivisionError
  else match SFdiv prec emax (Z2SF n) (Z2SF d) with
       | S754_infinity _ => Exc OverflowError
       | f => Val f
       end.

(** [x * f] with [x] an int and [f] a float: [float(x) * f]. *)
Definition int_mul (x : Z) (f : spec_float) : res spec_float :=
  res_bind (of_int x) (fun fx => Val (SFmul prec emax fx f)).

(** [int(f)]: truncation towards zero. *)
Definition to_int (f : spec_float) : res Z :=
  match f with
  | S754_zero _ => Val 0
  | S754_finite s m e => Val (cond_Zopp s (Z.shiftl (Zpos m) e))
  | S754_infinity _ => Exc OverflowError
  | S754_nan => Exc ValueError
  end.

End PyFloat.

(** ** Where a dropped fraction lies

    Used to state what the rounding of [SpecFloat] does. *)

(** The fraction [num / den] in [0, 1) as the round and sticky bits of a
    shifted mantissa tell it: below, at or above one half. *)
Definition located (r s : bool) (num den : Z) : Prop :=
  0 < den /\
  match r, s with
  | false, false => num = 0
  | false, true => 0 < num /\ 2 * num < den
  | true, false => 2 * num = den
  | true, true => den < 2 * num /\ num < den
  end.

(** The location of a fraction, as [shr_record_of_loc] and
    [loc_of_shr_record] code it. *)
Definition loc_located (l : location) (num den : Z) : Prop :=
  located (shr_r (shr_record_of_loc 0 l)) (shr_s (shr_record_of_loc 0 l))
          num den.

(** ** Images: the part of a numpy array the editor observes *)

Definition pixel : Type := (Z * Z * Z)%type.   (* B, G, R *)

(** A BGR image of shape [(shape0, shape1, 3)].  The column count is kept
    beside the rows because an array with no rows still has one. *)
Record ndarray : Type := mk_ndarray {
  shape1 : Z;
  rows : list (list pixel)
}.

Definition shape0 (a : ndarray) : Z := Z.of_nat (length (rows a)).

(** [a.size] *)
Definition size (a : ndarray) : Z := shape0 a * shape1 a * 3.

(** [a.copy()]: an equal array.  No callback writes into an array in place,
    so sharing between the original, its slices and the stacks cannot be
    observed and a copy is modelled by the value itself. *)
Definition copy (a : ndarray) : ndarray := a.

(** Bounds of the slice [i:j] of a sequence of length [n]: a negative index
    counts from the end, and both ends are clipped to [0..n]. *)
Definition slice_index (n k : Z) : Z :=
  if k <? 0 then Z.max (k + n) 0 else Z.min k n.

Definition slice_len (n i j : Z) : Z :=
  Z.max (slice_index n j - slice_index n i) 0.

Definition py_slice {A : Type} (l : list A) (i j : Z) : list A :=
  let n := Z.of_nat (length l) in
  firstn (Z.to_nat (slice_len n i j)) (skipn (Z.to_nat (slice_index n i)) l).

(** [a[y1:y2, x1:x2]] *)
Definition crop (a : ndarray) (y1 y2 x1 x2 : Z) : ndarray :=
  {| shape1 := slice_len (shape1 a) x1 x2;
     rows := map (fun r => py_slice r x1 x2) (py_slice (rows a) y1 y2) |}.

(** ** Python lists used as stacks *)

Fixpoint py_last {A : Type} (l : list A) : option A :=
  match l with
  | [] => None
  | [x] => Some x
  | _ :: t => py_last t
  end.

(** [l.pop()]: the remaining list and the removed last element. *)
Definition py_pop {A : Type} (l : list A) : option (list A * A) :=
  match py_last l with
  | None => None
  | Some x => Some (removelast l, x)
  end.

(** ** The session state: the attributes of [ImageEditorApp] *)

Record state : Type := mk_state {
  original_image : option ndarray;
  cropped_image : option ndarray;
  resized_image : option ndarray;   (* the working image: saved, undone, redone *)
  display_image : option ndarray;
  start_x : Z;
  start_y : Z;
  end_x : Z;
  end_y : Z;
  undo_stack : list ndarray;
  redo_stack : list ndarray;
  tk_crop : option ndarray          (* the buffer the preview label was drawn from *)
}.

(** [__init__] *)
Definition init : state :=
  {| original_image := None; cropped_image := None; resized_image := None;
     display_image := None;
     start_x := 0; start_y := 0; end_x := 0; end_y := 0;
     undo_stack := []; redo_stack := []; tk_crop := None |}.

Definition set_original_image (v : option ndarray) (s : state) : state :=
  mk_state v (cropped_image s) (resized_image s) (display_image s)
    (start_x s) (start_y s) (end_x s) (end_y s)
    (undo_stack s) (redo_stack s) (tk_crop s).

Definition set_cropped_image (v : option ndarray) (s : state) : state :=
  mk_state (original_image s) v (resized_image s) (display_image s)
    (start_x s) (start_y s) (end_x s) (end_y s)
    (undo_stack s) (redo_stack s) (tk_crop s).

Definition set_resized_image (v : option ndarray) (s : state) : state :=
  mk_state (original_image s) (cropped_image s) v (display_image s)
    (start_x s) (start_y s) (end_x s) (end_y s)
    (undo_stack s) (redo_stack s) (tk_crop s).

Definition set_display_image (v : option ndarray) (s : state) : state :=
  mk_state (original_image s) (cropped_image s) (resized_image s) v
    (start_x s) (start_y s) (end_x s) (end_y s)
    (undo_stack s) (redo_stack s) (tk_crop s).

Definition set_start (x y : Z) (s : state) : state :=
  mk_state (original_image s) (cropped_image s) (resized_image s)
    (display_image s) x y (end_x s) (end_y s)
    (undo_stack s) (redo_stack s) (tk_crop s).

Definition set_end (x y : Z) (s : state) : state :=
  mk_state (original_image s) (cropped_image s) (resized_image s)
    (display_image s) (start_x s) (start_y s) x y
    (undo_stack s) (redo_stack s) (tk_crop s).

Definition set_undo_stack (v : list ndarray) (s : state) : state :=
  mk_state (original_image s) (cropped_image s) (resized_image s)
    (display_image s) (start_x s) (start_y s) (end_x s) (end_y s)
    v (redo_stack s) (tk_crop s).

Definition set_redo_stack (v : list ndarray) (s : state) : state :=
  mk_state (original_image s) (cropped_image s) (resized_image s)
    (display_image s) (start_x s) (start_y s) (end_x s) (end_y s)
    (undo_stack s) v (tk_crop s).

Definition set_tk_crop (v : option ndarray) (s : state) : state :=
  mk_state (original_image s) (cropped_image s) (resized_image s)
    (display_image s) (start_x s) (start_y s) (end_x s) (end_y s)
    (undo_stack s) (redo_stack s) v.

(** ** Callbacks as state transformers that may raise

    A callback maps the state to a result and the state it leaves behind;
    when a statement raises, the assignments made before it stay. *)

Definition M (A : Type) : Type := state -> res A * state.

Definition ret {A : Type} (a : A) : M A := fun s => (Val a, s).

Definition bind {A B : Type} (m : M A) (k : A -> M B) : M B :=
  fun s => match m s with
           | (Val a, s') => k a s'
           | (Exc e, s') => (Exc e, s')
           end.

Definition raise {A : Type} (e : exn) : M A := fun s => (Exc e, s).

Definition get : M state := fun s => (Val s, s).

Definition modify (f : state -> state) : M unit := fun s => (Val tt, f s).

(** A pure computation that may raise. *)
Definition lift {A : Type} (r : res A) : M A := fun s => (r, s).

(** The value of an option, or exception [e] when it is [None]. *)
Definition or_raise {A : Type} (e : exn) (o : option A) : M A :=
  match o with
  | Some a => ret a
  | None => raise e
  end.

Declare Scope py_scope.
Delimit Scope py_scope with py.
Notation "x <- m ;; k" := (bind m (fun x => k))
  (at level 61, m at next level, right associativity) : py_scope.
Notation "m ;; k" := (bind m (fun _ => k))
  (at level 61, right associativity) : py_scope.
Local Open Scope py_scope.

(** The state a callback leaves, whether it returned or raised. *)
Definition exec {A : Type} (m : M A) (s : state) : state := snd (m s).

(** What a callback did: [Val tt] on return, [Exc e] when it raised. *)
Definition outcome {A : Type} (m : M A) (s : state) : res A := fst (m s).

(** ** The crop rectangle in image coordinates

    Lines 107-114 of [finish_crop]: the drag corners are ordered, each axis
    gets the scale factor [image extent / canvas extent] (a float), and each
    corner coordinate is [int(coordinate * scale)]. *)

(** [int(x * scale)] *)
Definition scaled (x : Z) (scale : spec_float) : res Z :=
  res_bind (PyFloat.int_mul x scale) PyFloat.to_int.

Record box : Type := mk_box {
  img_x1 : Z; img_y1 : Z; img_x2 : Z; img_y2 : Z
}.

Definition crop_box (sx sy ex ey : Z) (src_w src_h canvas_w canvas_h : Z)
  : res box :=
  let x1 := Z.min sx ex in
  let y1 := Z.min sy ey in
  let x2 := Z.max sx ex in
  let y2 := Z.max sy ey in
  res_bind (PyFloat.truediv src_w canvas_w) (fun scale_x =>
  res_bind (PyFloat.truediv src_h canvas_h) (fun scale_y =>
  res_bind (scaled x1 scale_x) (fun ix1 =>
  res_bind (scaled y1 scale_y) (fun iy1 =>
  res_bind (scaled x2 scale_x) (fun ix2 =>
  res_bind (scaled y2 scale_y) (fun iy2 =>
  Val (mk_box ix1 iy1 ix2 iy2))))))).

(** ** The callbacks *)

Section Editor.

(** [cv2.imread]: the decoded image, or [None] when the file cannot be read.
    A decoded image is a non-empty BGR array, which the display conversion
    of [show_image] accepts. *)
Variable imread : string -> option ndarray.

(** [cv2.resize(src, (width, height))]: [None] stands for [cv2.error]. *)
Variable cv2_resize : ndarray -> Z -> Z -> option ndarray.

(** The three OpenCV calls of [apply_edge] (to gray, Canny, back to BGR) as
    one step; [None] stands for [cv2.error]. *)
Variable edge_bgr : ndarray -> option ndarray.

(** [cv2.imwrite(path, img)]: [None] stands for [cv2.error], raised for
    instance for an empty array; [Some false] is the answer [False], given
    when the file could not be written. *)
Variable imwrite : string -> ndarray -> option bool.

(** [push_undo]: append to the undo stack, clear the redo stack. *)
Definition push_undo (image : ndarray) : M unit :=
  modify (fun s => set_undo_stack (undo_stack s ++ [image]) s) ;;
  modify (set_redo_stack []).

(** [show_image]: only [display_image] matters to the other callbacks. *)
Definition show_image (img : ndarray) : M unit :=
  modify (set_display_image (Some img)).

(** [display_cropped_image]: nothing for [None] or an empty array, else the
    preview label is redrawn from [img]. *)
Definition display_cropped_image (img : option ndarray) : M unit :=
  match img with
  | None => ret tt
  | Some a => if size a =? 0 then ret tt else modify (set_tk_crop (Some a))
  end.

(** [load_image]; [path] is the answer of the file dialog, empty when the
    dialog was cancelled. *)
Definition load_image (path : string) : M unit :=
  if String.eqb path "" then ret tt
  else
    modify (set_original_image (imread path)) ;;
    s <- get ;;
    img <- or_raise AttributeError (original_image s) ;;   (* None.copy() *)
    push_undo (copy img) ;;
    show_image img.

(** [start_crop]; the rectangle item drawn on the canvas is not modelled. *)
Definition start_crop (x y : Z) : M unit :=
  modify (set_start x y).

(** [update_crop] only moves the rectangle item on the canvas. *)
Definition update_crop (x y : Z) : M unit :=
  ret tt.

(** [finish_crop]; [x], [y] are the coordinates of the release event and
    [canvas_w], [canvas_h] what [winfo_width()] and [winfo_height()]
    answer. *)
Definition finish_crop (x y canvas_w canvas_h : Z) : M unit :=
  modify (set_end x y) ;;
  s <- get ;;
  d <- or_raise AttributeError (display_image s) ;;        (* None.shape *)
  b <- lift (crop_box (start_x s) (start_y s) (end_x s) (end_y s)
               (shape1 d) (shape0 d) canvas_w canvas_h) ;;
  let c := crop d (img_y1 b) (img_y2 b) (img_x1 b) (img_x2 b) in
  modify (set_cropped_image (Some c)) ;;
  modify (set_resized_image (Some (copy c))) ;;
  push_undo (copy (copy c)) ;;
  display_cropped_image (Some c).

(** [resize_image]; [value] is the slider position, already read as an
    int. *)
Definition resize_image (value : Z) : M unit :=
  s <- get ;;
  match cropped_image s with
  | None => ret tt
  | Some c =>
      let percent := value in
      width <- lift (res_bind (PyFloat.truediv (shape1 c * percent) 100)
                       PyFloat.to_int) ;;
      height <- lift (res_bind (PyFloat.truediv (shape0 c * percent) 100)
                        PyFloat.to_int) ;;
      resized <- or_raise Cv2Error (cv2_resize c width height) ;;
      modify (set_resized_image (Some resized)) ;;
      display_cropped_image (Some resized)
  end.

(** [save_image]: the state is left alone; the result is the file that
    was written, if any.  [path] is the answer of the save dialog, empty
    when the dialog was cancelled.  The answer of [cv2.imwrite] is not
    looked at: when it is [False] the callback goes on to its message box
    like after a write, and nothing was written. *)
Definition save_image (path : string) : M (option (string * ndarray)) :=
  s <- get ;;
  match resized_image s with
  | None => ret None                              (* "No image to save." *)
  | Some a =>
      if String.eqb path "" then ret None
      else
        written <- or_raise Cv2Error (imwrite path a) ;;
        ret (if written : bool then Some (path, a) else None)
  end.

(** [apply_edge] *)
Definition apply_edge : M unit :=
  s <- get ;;
  match resized_image s with
  | None => ret tt
  | Some r =>
      edges <- or_raise Cv2Error (edge_bgr r) ;;
      push_undo (copy r) ;;
      modify (set_resized_image (Some edges)) ;;
      display_cropped_image (Some edges)
  end.

(** [undo] *)
Definition undo : M unit :=
  s <- get ;;
  if (1 <? Z.of_nat (length (undo_stack s))) then
    p <- or_raise IndexError (py_pop (undo_stack s)) ;;
    modify (set_undo_stack (fst p)) ;;
    modify (fun s => set_redo_stack (redo_stack s ++ [snd p]) s) ;;
    s <- get ;;
    top <- or_raise IndexError (py_last (undo_stack s)) ;;
    modify (set_resized_image (Some (copy top))) ;;
    display_cropped_image (Some (copy top))
  else ret tt.

(** [redo] *)
Definition redo : M unit :=
  s <- get ;;
  match redo_stack s with
  | [] => ret tt
  | _ :: _ =>
      p <- or_raise IndexError (py_pop (redo_stack s)) ;;
      modify (set_redo_stack (fst p)) ;;
      modify (set_resized_image (Some (snd p))) ;;
      modify (fun s => set_undo_stack (undo_stack s ++ [copy (snd p)]) s) ;;
      display_cropped_image (Some (snd p))
  end.

(** ** Sessions: sequences of user events *)

Inductive event : Type :=
| Load (path : string)
| StartCrop (x y : Z)
| UpdateCrop (x y : Z)
| FinishCrop (x y canvas_w canvas_h : Z)
| Resize (value : Z)
| Save (path : string)
| Edge
| Undo
| Redo.

Definition handle (ev : event) : M unit :=
  match ev with
  | Load path => load_image path
  | StartCrop x y => start_crop x y
  | UpdateCrop x y => update_crop x y
  | FinishCrop x y w h => finish_crop x y w h
  | Resize v => resize_image v
  | Save path => save_image path ;; ret tt
  | Edge => apply_edge
  | Undo => undo
  | Redo => redo
  end.

(** The event loop: an exception ends its callback and the loop goes on
    with the state as the callback left it. *)
Definition run (evs : list event) (s : state) : state :=
  fold_left (fun s ev => exec (handle ev) s) evs s.

Definition reachable (s : state) : Prop :=
  exists evs, run evs init = s.

End Editor.

(** ** Observations on a state *)

(** The invariant of the data model: when the undo stack is not empty its
    top entry is the working image. *)
Definition top_is_working (s : state) : Prop :=
  forall t, py_last (undo_stack s) = Some t -> resized_image s = Some t.

(** Number of snapshots held by the two stacks. *)
Definition stored (s : state) : nat :=
  (length (undo_stack s) + length (redo_stack s))%nat.

(** The callbacks that call [push_undo]. *)
Definition commits (ev : event) : bool :=
  match ev with
  | Load _ | FinishCrop _ _ _ _ | Edge => true
  | _ => false
  end.

(** A load whose dialog gave a path that [cv2.imread] decodes. *)
Definition decodes (imread : string -> option ndarray) (ev : event) : bool :=
  match ev with
  | Load path =>
      negb (String.eqb path "")
      && match imread path with Some _ => true | None => false end
  | _ => false
  end.

(** A mouse release on the canvas. *)
Definition crops (ev : event) : bool :=
  match ev with
  | FinishCrop _ _ _ _ => true
  | _ => false
  end.

(** A gesture point inside a canvas of the given extent. *)
Definition on_canvas (x y canvas_w canvas_h : Z) : Prop :=
  0 <= x < canvas_w /\ 0 <= y < canvas_h.

(** A corner inside the pixel grid of an image of the given extent. *)
Definition in_image (x y src_w src_h : Z) : Prop :=
  0 <= x < src_w /\ 0 <= y < src_h.

(** Extents as OpenCV and Tk hold them: C ints. *)
Definition int_max : Z := 2 ^ 31 - 1.

(** The contract of [cv2.resize] assumed where a resize must succeed: on a non-empty source and a
    target size with positive extents it returns an array of that size. *)
Definition resizes_to_size
  (cv2_resize : ndarray -> Z -> Z -> option ndarray) : Prop :=
  forall src width height,
    0 < size src -> 0 < width -> 0 < height ->
    exists r, cv2_resize src width height = Some r /\
              shape1 r = width /\ shape0 r = height.

(** ** A reference environment, to run sessions on

    A file reader that knows one 4 x 3 image, a nearest-neighbour resize
    and a threshold filter.  Like [cv2.resize], [resize_nearest] rejects an
    empty source and a target size with a non-positive extent (the size
    [(0, 0)] asks OpenCV to derive the size from scale factors, which are
    not given here); like [cv2.cvtColor], [edge_threshold] rejects an
    empty source, and so does the file writer [sample_imwrite], which
    also knows one path it cannot write to. *)

Definition sample_image : ndarray :=
  {| shape1 := 4;
     rows := [ [(0,0,0); (1,0,0); (2,0,0); (3,0,0)];
               [(0,1,0); (1,1,0); (2,1,0); (3,1,0)];
               [(0,2,0); (1,2,0); (2,2,0); (3,2,0)] ] |}.

Definition sample_imread (path : string) : option ndarray :=
  if String.eqb path "missing.png" then None else Some sample_image.

Definition resize_nearest (src : ndarray) (width height : Z) : option ndarray :=
  if (size src =? 0) || (width <=? 0) || (height <=? 0) then None
  else
    let pick (i j : nat) : pixel :=
      nth (Z.to_nat (Z.of_nat j * shape1 src / width))
          (nth (Z.to_nat (Z.of_nat i * shape0 src / height)) (rows src) [])
          (0, 0, 0) in
    Some {| shape1 := width;
            rows := map (fun i => map (pick i) (seq 0 (Z.to_nat width)))
                        (seq 0 (Z.to_nat height)) |}.

Definition edge_threshold (src : ndarray) : option ndarray :=
  if size src =? 0 then None
  else
    let mark (p : pixel) : pixel :=
      let '(b, g, r) := p in
      if 2 <=? b + g + r then (255, 255, 255) else (0, 0, 0) in
    Some {| shape1 := shape1 src; rows := map (map mark) (rows src) |}.

Definition sample_imwrite (path : string) (img : ndarray) : option bool :=
  if size img =? 0 then None
  else Some (negb (String.eqb path "readonly/out.png")).

(** A session on the reference environment. *)
Definition sample_run (evs : list event) : state :=
  run sample_imread resize_nearest edge_threshold sample_imwrite evs init.

(** Load the sample and crop the 2 x 1 region whose corner is (1, 1), on a
    canvas that shows the image at scale 1. *)
Definition loaded_and_cropped : list event :=
  [Load "a.png"; StartCrop 1 1; FinishCrop 3 2 4 3].

(** * Properties *)

(** ** Lists as stacks *)

Lemma py_last_snoc {A : Type} (l : list A) (x : A) :
  py_last (l ++ [x]) = Some x.
Proof.
  induction l as [|a l IH]; [reflexivity|].
  cbn [app py_last]. rewrite IH.
  destruct (l ++ [x]) eqn:E; [destruct l; discriminate|reflexivity].
Qed.

Lemma py_pop_snoc {A : Type} (l : list A) (x : A) :
  py_pop (l ++ [x]) = Some (l, x).
Proof.
  unfold py_pop. rewrite py_last_snoc, removelast_last. reflexivity.
Qed.

Lemma snoc_cases {A : Type} (l : list A) :
  l = [] \/ exists l' x, l = l' ++ [x].
Proof.
  destruct l as [|a l]; [now left|right].
  destruct (@exists_last A (a :: l)) as [l' [x E]]; [discriminate|eauto].
Qed.

(** ** What each callback does to the state *)

Section Callbacks.

Variable imread : string -> option ndarray.
Variable cv2_resize : ndarray -> Z -> Z -> option ndarray.
Variable edge_bgr : ndarray -> option ndarray.
Variable imwrite : string -> ndarray -> option bool.

Lemma push_undo_eq (img : ndarray) (s : state) :
  push_undo img s
  = (Val tt, set_redo_stack [] (set_undo_stack (undo_stack s ++ [img]) s)).
Proof. reflexivity. Qed.

(** The preview only ever touches [tk_crop]. *)
Lemma display_cropped_image_eq (img : option ndarray) (s : state) :
  exists v, display_cropped_image img s = (Val tt, set_tk_crop v s).
Proof.
  destruct s; unfold display_cropped_image.
  destruct img as [a|]; [destruct (size a =? 0)|]; eexists; reflexivity.
Qed.

Lemma display_cropped_image_empty (a : ndarray) (s : state) :
  size a = 0 -> display_cropped_image (Some a) s = (Val tt, s).
Proof.
  intros E. unfold display_cropped_image. rewrite E. reflexivity.
Qed.

(** [undo] with fewer than two entries on the undo stack. *)
Lemma undo_short (s : state) :
  (length (undo_stack s) <= 1)%nat -> undo s = (Val tt, s).
Proof.
  intros L. unfold undo, bind, get.
  destruct (1 <? Z.of_nat (length (undo_stack s))) eqn:E; [|reflexivity].
  apply Z.ltb_lt in E. lia.
Qed.

(** [undo] with at least two entries: [top] moves to the redo stack and
    [below], the new top, becomes the working image. *)
Lemma undo_step (s : state) (l : list ndarray) (below top : ndarray) :
  undo_stack s = l ++ [below; top] ->
  exists v,
    undo s
    = (Val tt,
       set_tk_crop v
         (set_resized_image (Some below)
            (set_redo_stack (redo_stack s ++ [top])
               (set_undo_stack (l ++ [below]) s)))).
Proof.
  intros U. unfold undo, bind, get.
  assert (L : (1 <? Z.of_nat (length (undo_stack s))) = true).
  { apply Z.ltb_lt. rewrite U, length_app. cbn. lia. }
  rewrite L.
  replace (l ++ [below; top]) with ((l ++ [below]) ++ [top]) in U
    by (rewrite <- app_assoc; reflexivity).
  rewrite U, py_pop_snoc. cbn [or_raise ret modify fst snd].
  cbn [set_undo_stack set_redo_stack undo_stack redo_stack].
  rewrite py_last_snoc. cbn [or_raise ret modify copy].
  match goal with
  | |- context [display_cropped_image ?i ?st] =>
      destruct (display_cropped_image_eq i st) as [v ->]
  end.
  exists v. destruct s; reflexivity.
Qed.

(** [redo] with an empty redo stack. *)
Lemma redo_empty (s : state) :
  redo_stack s = [] -> redo s = (Val tt, s).
Proof.
  intros E. unfold redo, bind, get. rewrite E. reflexivity.
Qed.

(** [redo] with a non-empty redo stack: its last entry [x] becomes the
    working image and goes back on the undo stack. *)
Lemma redo_step (s : state) (l : list ndarray) (x : ndarray) :
  redo_stack s = l ++ [x] ->
  exists v,
    redo s
    = (Val tt,
       set_tk_crop v
         (set_undo_stack (undo_stack s ++ [x])
            (set_resized_image (Some x) (set_redo_stack l s)))).
Proof.
  intros R. unfold redo, bind, get. rewrite R.
  destruct (l ++ [x]) eqn:E; [destruct l; discriminate|]. rewrite <- E.
  rewrite py_pop_snoc. cbn [or_raise ret modify fst snd copy].
  match goal with
  | |- context [display_cropped_image ?i ?st] =>
      destruct (display_cropped_image_eq i st) as [v ->]
  end.
  exists v. destruct s; reflexivity.
Qed.

(** [load_image] when the dialog is cancelled. *)
Lemma load_image_cancelled (s : state) :
  load_image imread "" s = (Val tt, s).
Proof. reflexivity. Qed.

(** [load_image] on a file that decodes to [img]. *)
Lemma load_image_decoded (s : state) (path : string) (img : ndarray) :
  path <> ""%string ->
  imread path = Some img ->
  load_image imread path s
  = (Val tt,
     set_display_image (Some img)
       (set_redo_stack []
          (set_undo_stack (undo_stack s ++ [img])
             (set_original_image (Some img) s)))).
Proof.
  intros P I. unfold load_image.
  destruct (String.eqb path "") eqn:E; [apply String.eqb_eq in E; contradiction|].
  unfold bind, modify, get. cbn [set_original_image original_image].
  rewrite I. reflexivity.
Qed.

(** [finish_crop] before any image is shown. *)
Lemma finish_crop_no_image (s : state) (x y cw ch : Z) :
  display_image s = None ->
  finish_crop x y cw ch s = (Exc AttributeError, set_end x y s).
Proof.
  intros D. unfold finish_crop, bind, modify, get.
  cbn [set_end display_image]. rewrite D. reflexivity.
Qed.

(** [finish_crop] when computing the rectangle raises. *)
Lemma finish_crop_raises (s : state) (x y cw ch : Z) (d : ndarray) (e : exn) :
  display_image s = Some d ->
  crop_box (start_x s) (start_y s) x y (shape1 d) (shape0 d) cw ch = Exc e ->
  finish_crop x y cw ch s = (Exc e, set_end x y s).
Proof.
  intros D B. unfold finish_crop, bind, modify, get.
  cbn [set_end display_image start_x start_y end_x end_y].
  rewrite D. cbn [or_raise ret lift]. rewrite B. reflexivity.
Qed.

(** [finish_crop] when the rectangle is [b]: the slice becomes the cropped
    and the working image and is appended to the undo stack. *)
Lemma finish_crop_returns (s : state) (x y cw ch : Z) (d : ndarray) (b : box) :
  display_image s = Some d ->
  crop_box (start_x s) (start_y s) x y (shape1 d) (shape0 d) cw ch = Val b ->
  let c := crop d (img_y1 b) (img_y2 b) (img_x1 b) (img_x2 b) in
  exists v,
    finish_crop x y cw ch s
    = (Val tt,
       set_tk_crop v
         (set_redo_stack []
            (set_undo_stack (undo_stack s ++ [c])
               (set_resized_image (Some c)
                  (set_cropped_image (Some c) (set_end x y s)))))).
Proof.
  intros D B c. unfold finish_crop, bind, modify, get.
  cbn [set_end display_image start_x start_y end_x end_y].
  rewrite D. cbn [or_raise ret lift]. rewrite B.
  rewrite push_undo_eq. fold c. cbn [copy].
  match goal with
  | |- context [display_cropped_image ?i ?st] =>
      destruct (display_cropped_image_eq i st) as [v ->]
  end.
  exists v. destruct s; reflexivity.
Qed.

(** A returning [finish_crop] always comes from a shown image and a
    rectangle. *)
Lemma finish_crop_inv (s s' : state) (x y cw ch : Z) :
  finish_crop x y cw ch s = (Val tt, s') ->
  exists d b,
    display_image s = Some d /\
    crop_box (start_x s) (start_y s) x y (shape1 d) (shape0 d) cw ch = Val b.
Proof.
  intros F. destruct (display_image s) as [d|] eqn:D.
  - destruct (crop_box (start_x s) (start_y s) x y (shape1 d) (shape0 d) cw ch)
      as [b|e] eqn:B.
    + eauto.
    + rewrite (finish_crop_raises _ _ _ _ _ _ _ D B) in F. discriminate.
  - rewrite (finish_crop_no_image _ _ _ _ _ D) in F. discriminate.
Qed.

(** [apply_edge] on a working image the filter accepts: the image before
    the filter is what goes on the undo stack. *)
Lemma apply_edge_returns (s : state) (r edges : ndarray) :
  resized_image s = Some r ->
  edge_bgr r = Some edges ->
  exists v,
    apply_edge edge_bgr s
    = (Val tt,
       set_tk_crop v
         (set_resized_image (Some edges)
            (set_redo_stack [] (set_undo_stack (undo_stack s ++ [r]) s)))).
Proof.
  intros R E. unfold apply_edge, bind, get. rewrite R, E.
  cbn [or_raise ret]. rewrite push_undo_eq. cbn [copy modify].
  match goal with
  | |- context [display_cropped_image ?i ?st] =>
      destruct (display_cropped_image_eq i st) as [v ->]
  end.
  exists v. destruct s; reflexivity.
Qed.

End Callbacks.

(** ** Crop commit and the history (C2) *)

(** C2, amended: committing a crop does not reset the history.  The new
    cropped image becomes the working image and is appended on top of the
    undo stack, every earlier entry stays below it, and the redo stack is
    cleared. *)
Theorem finish_crop_appends_to_history (s s' : state) (x y cw ch : Z) :
  finish_crop x y cw ch s = (Val tt, s') ->
  exists c,
    cropped_image s' = Some c /\
    resized_image s' = Some c /\
    undo_stack s' = undo_stack s ++ [c] /\
    redo_stack s' = [].
Proof.
  intros F. destruct (finish_crop_inv _ _ _ _ _ _ F) as (d & b & D & B).
  destruct (finish_crop_returns s x y cw ch d b D B) as [v E].
  rewrite E in F. injection F as <-.
  eexists. repeat split; reflexivity.
Qed.

Lemma finish_crop_appends_to_history_witness :
  finish_crop 3 2 4 3 (sample_run [Load "a.png"; StartCrop 1 1])
  = (Val tt, sample_run loaded_and_cropped) /\
  exists c,
    cropped_image (sample_run loaded_and_cropped) = Some c /\
    resized_image (sample_run loaded_and_cropped) = Some c /\
    undo_stack (sample_run loaded_and_cropped)
    = undo_stack (sample_run [Load "a.png"; StartCrop 1 1]) ++ [c] /\
    redo_stack (sample_run loaded_and_cropped) = [].
Proof.
  split; [vm_compute; reflexivity|].
  apply (finish_crop_appends_to_history
           (sample_run [Load "a.png"; StartCrop 1 1])
           (sample_run loaded_and_cropped) 3 2 4 3).
  vm_compute; reflexivity.
Defined.

(** C2 as stated fails: after loading and cropping, the undo stack holds
    the loaded image below the cropped one, so the cropped image is not its
    sole entry. *)
Lemma crop_does_not_reset_history :
  outcome (finish_crop 3 2 4 3) (sample_run [Load "a.png"; StartCrop 1 1])
  = Val tt /\
  cropped_image (sample_run loaded_and_cropped)
  = Some (crop sample_image 1 2 1 3) /\
  undo_stack (sample_run loaded_and_cropped)
  = [sample_image; crop sample_image 1 2 1 3] /\
  undo_stack (sample_run loaded_and_cropped) <> [crop sample_image 1 2 1 3].
Proof.
  repeat split; try (vm_compute; reflexivity).
  vm_compute. discriminate.
Qed.

(** ** Loading and the history (C3) *)

(** C3, amended: a successful load pushes a copy of the loaded image onto
    the undo stack and clears the redo stack; it sets the original and the
    displayed image and leaves the working and the cropped image as they
    were. *)
Theorem load_image_pushes_loaded_image
  (imread : string -> option ndarray) (s : state) (path : string)
  (img : ndarray) :
  path <> ""%string ->
  imread path = Some img ->
  outcome (load_image imread path) s = Val tt /\
  original_image (exec (load_image imread path) s) = Some img /\
  display_image (exec (load_image imread path) s) = Some img /\
  undo_stack (exec (load_image imread path) s) = undo_stack s ++ [img] /\
  redo_stack (exec (load_image imread path) s) = [] /\
  resized_image (exec (load_image imread path) s) = resized_image s /\
  cropped_image (exec (load_image imread path) s) = cropped_image s.
Proof.
  intros P I. unfold outcome, exec.
  rewrite (load_image_decoded imread s path img P I).
  repeat split; reflexivity.
Qed.

Lemma load_image_pushes_loaded_image_witness :
  outcome (load_image sample_imread "b.png") (sample_run loaded_and_cropped)
  = Val tt /\
  undo_stack (exec (load_image sample_imread "b.png")
                (sample_run loaded_and_cropped))
  = undo_stack (sample_run loaded_and_cropped) ++ [sample_image] /\
  resized_image (exec (load_image sample_imread "b.png")
                   (sample_run loaded_and_cropped))
  = resized_image (sample_run loaded_and_cropped).
Proof.
  destruct (load_image_pushes_loaded_image sample_imread
              (sample_run loaded_and_cropped) "b.png" sample_image)
    as (H1 & _ & _ & H4 & _ & H6 & _).
  - discriminate.
  - reflexivity.
  - exact (conj H1 (conj H4 H6)).
Defined.

(** C3 as stated fails: a load during a session changes the history and
    does not reset the working image. *)
Lemma load_changes_history_and_keeps_working_image :
  outcome (load_image sample_imread "b.png") (sample_run loaded_and_cropped)
  = Val tt /\
  undo_stack (exec (load_image sample_imread "b.png")
                (sample_run loaded_and_cropped))
  <> undo_stack (sample_run loaded_and_cropped) /\
  resized_image (exec (load_image sample_imread "b.png")
                   (sample_run loaded_and_cropped))
  <> None.
Proof.
  repeat split; vm_compute; try reflexivity; discriminate.
Qed.

(** ** Undo (C9) *)

Lemma two_or_more {A : Type} (l : list A) :
  (1 < length l)%nat -> exists l' below top, l = l' ++ [below; top].
Proof.
  intros L. destruct (snoc_cases l) as [->|(l1 & top & ->)]; [cbn in L; lia|].
  destruct (snoc_cases l1) as [->|(l2 & below & ->)]; [cbn in L; lia|].
  exists l2, below, top. rewrite <- app_assoc. reflexivity.
Qed.

Lemma hd_error_app_cons {A : Type} (l l' : list A) (a b : A) :
  hd_error (l ++ a :: l') = hd_error (l ++ [a; b]).
Proof. destruct l; reflexivity. Qed.

(** C9, amended: with more than one entry on the undo stack, [undo] moves
    the top entry onto the redo stack and the entry below it, now the top,
    becomes the working image; with zero or one entries [undo] changes
    nothing.  The oldest entry of the undo stack is never popped; nothing
    makes it the post-crop baseline. *)
Theorem undo_moves_top_or_does_nothing (s : state) :
  ((1 < length (undo_stack s))%nat ->
   exists l below top,
     undo_stack s = l ++ [below; top] /\
     outcome undo s = Val tt /\
     undo_stack (exec undo s) = l ++ [below] /\
     redo_stack (exec undo s) = redo_stack s ++ [top] /\
     resized_image (exec undo s) = Some below /\
     py_last (undo_stack (exec undo s)) = Some below) /\
  ((length (undo_stack s) <= 1)%nat -> undo s = (Val tt, s)) /\
  hd_error (undo_stack (exec undo s)) = hd_error (undo_stack s).
Proof.
  split; [|split].
  - intros L. destruct (two_or_more _ L) as (l & below & top & U).
    exists l, below, top. destruct (undo_step s l below top U) as [v E].
    unfold outcome, exec. rewrite E. cbn.
    rewrite py_last_snoc. repeat split; assumption || reflexivity.
  - apply undo_short.
  - destruct (Nat.le_gt_cases (length (undo_stack s)) 1) as [L|L].
    + unfold exec. rewrite (undo_short s L). reflexivity.
    + destruct (two_or_more _ L) as (l & below & top & U).
      destruct (undo_step s l below top U) as [v E].
      unfold exec. rewrite E, U. cbn. apply hd_error_app_cons.
Qed.

Lemma undo_moves_top_or_does_nothing_witness :
  (1 < length (undo_stack (sample_run loaded_and_cropped)))%nat /\
  exists l below top,
    undo_stack (sample_run loaded_and_cropped) = l ++ [below; top] /\
    outcome undo (sample_run loaded_and_cropped) = Val tt /\
    undo_stack (exec undo (sample_run loaded_and_cropped)) = l ++ [below] /\
    redo_stack (exec undo (sample_run loaded_and_cropped))
    = redo_stack (sample_run loaded_and_cropped) ++ [top] /\
    resized_image (exec undo (sample_run loaded_and_cropped)) = Some below /\
    py_last (undo_stack (exec undo (sample_run loaded_and_cropped)))
    = Some below.
Proof.
  assert (L : (1 < length (undo_stack (sample_run loaded_and_cropped)))%nat)
    by (vm_compute; lia).
  split; [exact L|].
  exact (proj1 (undo_moves_top_or_does_nothing
                  (sample_run loaded_and_cropped)) L).
Defined.

(** C9 as stated fails: after a load and a crop the oldest entry is the
    loaded image, not the post-crop baseline, and [undo] pops the post-crop
    baseline onto the redo stack, leaving the whole loaded image as the
    working image. *)
Lemma undo_pops_the_crop_baseline :
  cropped_image (sample_run loaded_and_cropped)
  = Some (crop sample_image 1 2 1 3) /\
  hd_error (undo_stack (sample_run loaded_and_cropped)) = Some sample_image /\
  sample_image <> crop sample_image 1 2 1 3 /\
  redo_stack (exec undo (sample_run loaded_and_cropped))
  = [crop sample_image 1 2 1 3] /\
  resized_image (exec undo (sample_run loaded_and_cropped))
  = Some sample_image.
Proof.
  repeat split; try (vm_compute; reflexivity).
  vm_compute. discriminate.
Qed.

(** ** The number of stored snapshots: undo, redo and the callbacks that
    commit nothing *)

Lemma stored_set_tk_crop (v : option ndarray) (s : state) :
  stored (set_tk_crop v s) = stored s.
Proof. reflexivity. Qed.

Lemma stored_undo (s : state) : stored (exec undo s) = stored s.
Proof.
  destruct (Nat.le_gt_cases (length (undo_stack s)) 1) as [L|L].
  - unfold exec. rewrite (undo_short s L). reflexivity.
  - destruct (two_or_more _ L) as (l & below & top & U).
    destruct (undo_step s l below top U) as [v E].
    unfold exec. rewrite E. unfold stored. cbn. rewrite U.
    rewrite !length_app. cbn. lia.
Qed.

Lemma stored_redo (s : state) : stored (exec redo s) = stored s.
Proof.
  destruct (snoc_cases (redo_stack s)) as [R|(l & x & R)].
  - unfold exec. rewrite (redo_empty s R). reflexivity.
  - destruct (redo_step s l x R) as [v E].
    unfold exec. rewrite E. unfold stored. cbn. rewrite R.
    rewrite !length_app. cbn. lia.
Qed.

Lemma stored_resize_image
  (cv2_resize : ndarray -> Z -> Z -> option ndarray) (value : Z) (s : state) :
  stored (exec (resize_image cv2_resize value) s) = stored s.
Proof.
  unfold exec, resize_image, bind, get, lift.
  destruct (cropped_image s) as [c|]; [|reflexivity].
  destruct (res_bind (PyFloat.truediv (shape1 c * value) 100) PyFloat.to_int)
    as [width|]; [|reflexivity].
  destruct (res_bind (PyFloat.truediv (shape0 c * value) 100) PyFloat.to_int)
    as [height|]; [|reflexivity].
  destruct (cv2_resize c width height) as [r|]; [|reflexivity].
  cbn [or_raise ret modify].
  match goal with
  | |- context [display_cropped_image ?i ?st] =>
      destruct (display_cropped_image_eq i st) as [v ->]
  end.
  reflexivity.
Qed.

Lemma stored_save_image
  (imwrite : string -> ndarray -> option bool) (path : string) (s : state) :
  exec (save_image imwrite path) s = s.
Proof.
  unfold exec, save_image, bind, get.
  destruct (resized_image s) as [a|]; [|reflexivity].
  destruct (String.eqb path ""); [reflexivity|].
  destruct (imwrite path a) as [[|]|]; reflexivity.
Qed.

(** ** The top of the undo stack and the working image (C1) *)

Lemma top_is_working_snoc (s : state) (l : list ndarray) (t : ndarray) :
  undo_stack s = l ++ [t] -> resized_image s = Some t -> top_is_working s.
Proof.
  intros U R t' T. rewrite U, py_last_snoc in T. congruence.
Qed.

Lemma finish_crop_top_is_working (s : state) (x y cw ch : Z) :
  outcome (finish_crop x y cw ch) s = Val tt ->
  top_is_working (exec (finish_crop x y cw ch) s).
Proof.
  unfold outcome, exec. intros O.
  destruct (finish_crop x y cw ch s) as [[[]|e] s'] eqn:F; [|discriminate].
  destruct (finish_crop_inv _ _ _ _ _ _ F) as (d & b & D & B).
  destruct (finish_crop_returns s x y cw ch d b D B) as [v E].
  rewrite E in F. injection F as <-.
  eapply top_is_working_snoc; reflexivity.
Qed.

Lemma finish_crop_keeps_top_is_working (s : state) (x y cw ch : Z) :
  top_is_working s -> top_is_working (exec (finish_crop x y cw ch) s).
Proof.
  intros T.
  destruct (outcome (finish_crop x y cw ch) s) as [[]|e] eqn:O.
  - apply finish_crop_top_is_working, O.
  - unfold outcome in O. unfold exec.
    destruct (display_image s) as [d|] eqn:D.
    + destruct (crop_box (start_x s) (start_y s) x y (shape1 d) (shape0 d)
                  cw ch) as [b|e'] eqn:B.
      * destruct (finish_crop_returns s x y cw ch d b D B) as [v E].
        rewrite E in O. discriminate.
      * rewrite (finish_crop_raises s x y cw ch d e' D B). exact T.
    + rewrite (finish_crop_no_image s x y cw ch D). exact T.
Qed.

Lemma undo_keeps_top_is_working (s : state) :
  top_is_working s -> top_is_working (exec undo s).
Proof.
  intros T. destruct (Nat.le_gt_cases (length (undo_stack s)) 1) as [L|L].
  - unfold exec. rewrite (undo_short s L). exact T.
  - destruct (two_or_more _ L) as (l & below & top & U).
    destruct (undo_step s l below top U) as [v E].
    unfold exec. rewrite E.
    apply (top_is_working_snoc _ l below); reflexivity.
Qed.

Lemma redo_keeps_top_is_working (s : state) :
  top_is_working s -> top_is_working (exec redo s).
Proof.
  intros T. destruct (snoc_cases (redo_stack s)) as [R|(l & x & R)].
  - unfold exec. rewrite (redo_empty s R). exact T.
  - destruct (redo_step s l x R) as [v E].
    unfold exec. rewrite E.
    apply (top_is_working_snoc _ (undo_stack s) x); reflexivity.
Qed.

(** C1, amended: a crop commit that returns leaves the top of the undo
    stack equal to the working image, and crop commit, undo and redo each
    keep that property when it holds before them.  It is not an invariant
    of every reachable state: loading pushes the loaded image without
    making it the working image. *)
Theorem crop_undo_redo_keep_top_is_working (s : state) :
  (forall x y cw ch,
     outcome (finish_crop x y cw ch) s = Val tt ->
     top_is_working (exec (finish_crop x y cw ch) s)) /\
  (top_is_working s ->
   (forall x y cw ch, top_is_working (exec (finish_crop x y cw ch) s)) /\
   top_is_working (exec undo s) /\
   top_is_working (exec redo s)).
Proof.
  split.
  - intros x y cw ch. apply finish_crop_top_is_working.
  - intros T. split; [|split].
    + intros x y cw ch. apply finish_crop_keeps_top_is_working, T.
    + apply undo_keeps_top_is_working, T.
    + apply redo_keeps_top_is_working, T.
Qed.

Lemma top_is_working_cropped : top_is_working (sample_run loaded_and_cropped).
Proof.
  apply (top_is_working_snoc _ [sample_image] (crop sample_image 1 2 1 3));
    vm_compute; reflexivity.
Qed.

Lemma crop_undo_redo_keep_top_is_working_witness :
  top_is_working (sample_run loaded_and_cropped) /\
  top_is_working (exec undo (sample_run loaded_and_cropped)) /\
  top_is_working (exec redo (sample_run loaded_and_cropped)).
Proof.
  split; [exact top_is_working_cropped|].
  exact (proj2 (proj2 (crop_undo_redo_keep_top_is_working
                         (sample_run loaded_and_cropped))
                  top_is_working_cropped)).
Defined.

(** C1 as stated fails: right after a load the state is reachable, its undo
    stack holds the loaded image, and there is no working image. *)
Lemma top_is_working_fails_after_load :
  reachable sample_imread resize_nearest edge_threshold sample_imwrite
    (sample_run [Load "a.png"]) /\
  py_last (undo_stack (sample_run [Load "a.png"])) = Some sample_image /\
  resized_image (sample_run [Load "a.png"]) = None /\
  ~ top_is_working (sample_run [Load "a.png"]).
Proof.
  split; [exists [Load "a.png"]; reflexivity|].
  split; [vm_compute; reflexivity|]. split; [vm_compute; reflexivity|].
  intros T. specialize (T sample_image). vm_compute in T.
  specialize (T eq_refl). discriminate T.
Qed.

(** The resize slider replaces the working image without a snapshot, so it
    too leaves a state whose undo top is not the working image. *)
Lemma top_is_working_fails_after_resize :
  ~ top_is_working (sample_run (loaded_and_cropped ++ [Resize 200])).
Proof.
  intros T. specialize (T (crop sample_image 1 2 1 3)). vm_compute in T.
  specialize (T eq_refl). discriminate T.
Qed.

(** The filter pushes the image it is about to replace: whenever it changes
    the working image, the top of the undo stack is the image before the
    filter. *)
Lemma apply_edge_pushes_previous_image
  (edge_bgr : ndarray -> option ndarray) (s : state) (r edges : ndarray) :
  resized_image s = Some r ->
  edge_bgr r = Some edges ->
  py_last (undo_stack (exec (apply_edge edge_bgr) s)) = Some r /\
  resized_image (exec (apply_edge edge_bgr) s) = Some edges.
Proof.
  intros R E. destruct (apply_edge_returns edge_bgr s r edges R E) as [v A].
  unfold exec. rewrite A. cbn. rewrite py_last_snoc. split; reflexivity.
Qed.

(** ** Undo followed by redo (C4) *)

(** C4, amended: when the undo stack holds more than one entry and its top
    is the working image, [undo] followed by [redo] gives back the working
    image and both stacks.  (When [undo] has nothing to pop, the [redo]
    that follows still pops a non-empty redo stack.) *)
Theorem undo_then_redo_restores (s : state) :
  (1 < length (undo_stack s))%nat ->
  top_is_working s ->
  resized_image (exec redo (exec undo s)) = resized_image s /\
  undo_stack (exec redo (exec undo s)) = undo_stack s /\
  redo_stack (exec redo (exec undo s)) = redo_stack s.
Proof.
  intros L T. destruct (two_or_more _ L) as (l & below & top & U).
  destruct (undo_step s l below top U) as [v E].
  unfold exec at 2 4 6. rewrite E.
  match goal with
  | |- context [exec redo ?st] =>
      destruct (redo_step st (redo_stack s) top eq_refl) as [w R];
      unfold exec; rewrite R
  end.
  cbn. repeat split.
  - symmetry. apply T. rewrite U.
    replace (l ++ [below; top]) with ((l ++ [below]) ++ [top])
      by (rewrite <- app_assoc; reflexivity).
    apply py_last_snoc.
  - rewrite U, <- app_assoc. reflexivity.
Qed.

Lemma undo_then_redo_restores_witness :
  (1 < length (undo_stack (sample_run loaded_and_cropped)))%nat /\
  top_is_working (sample_run loaded_and_cropped) /\
  resized_image (exec redo (exec undo (sample_run loaded_and_cropped)))
  = resized_image (sample_run loaded_and_cropped).
Proof.
  assert (L : (1 < length (undo_stack (sample_run loaded_and_cropped)))%nat)
    by (vm_compute; lia).
  split; [exact L|]. split; [exact top_is_working_cropped|].
  exact (proj1 (undo_then_redo_restores (sample_run loaded_and_cropped)
                  L top_is_working_cropped)).
Defined.

(** C4 as stated fails: after load, crop and one undo, the undo stack holds
    one entry and the redo stack one; a further undo does nothing and the
    redo after it replaces the working image. *)
Lemma undo_then_redo_changes_working_image :
  resized_image (sample_run (loaded_and_cropped ++ [Undo]))
  = Some sample_image /\
  resized_image
    (exec redo (exec undo (sample_run (loaded_and_cropped ++ [Undo]))))
  = Some (crop sample_image 1 2 1 3) /\
  resized_image
    (exec redo (exec undo (sample_run (loaded_and_cropped ++ [Undo]))))
  <> resized_image (sample_run (loaded_and_cropped ++ [Undo])).
Proof.
  repeat split; try (vm_compute; reflexivity).
  vm_compute. discriminate.
Qed.

(** After a filter the pair loses the filtered image: [undo] brings back
    the image before the filter and [redo] brings back that same image. *)
Lemma undo_then_redo_after_filter :
  resized_image (sample_run (loaded_and_cropped ++ [Edge]))
  = edge_threshold (crop sample_image 1 2 1 3) /\
  resized_image (sample_run (loaded_and_cropped ++ [Edge; Undo; Redo]))
  = Some (crop sample_image 1 2 1 3) /\
  edge_threshold (crop sample_image 1 2 1 3)
  <> Some (crop sample_image 1 2 1 3).
Proof.
  repeat split; try (vm_compute; reflexivity).
  vm_compute. discriminate.
Qed.

(** ** Empty crop rectangles (C6) *)

Lemma slice_len_same (n i : Z) : slice_len n i i = 0.
Proof. unfold slice_len. lia. Qed.

Lemma py_slice_same {A : Type} (l : list A) (i : Z) : py_slice l i i = [].
Proof. unfold py_slice. rewrite slice_len_same. reflexivity. Qed.

Lemma crop_empty (d : ndarray) (y1 y2 x1 x2 : Z) :
  x1 = x2 \/ y1 = y2 -> size (crop d y1 y2 x1 x2) = 0.
Proof.
  unfold size, shape0, crop. cbn [shape1 rows].
  intros [<-| <-].
  - rewrite slice_len_same. lia.
  - rewrite py_slice_same. reflexivity.
Qed.

(** A click without a drag maps to a rectangle with equal corners. *)
Lemma crop_box_click (sx sy src_w src_h cw ch : Z) (b : box) :
  crop_box sx sy sx sy src_w src_h cw ch = Val b ->
  img_x1 b = img_x2 b /\ img_y1 b = img_y2 b.
Proof.
  unfold crop_box. rewrite !Z.min_id, !Z.max_id.
  destruct (PyFloat.truediv src_w cw) as [fx|]; [|discriminate].
  destruct (PyFloat.truediv src_h ch) as [fy|]; [|discriminate].
  cbn [res_bind].
  destruct (scaled sx fx) as [ix|]; [|discriminate].
  destruct (scaled sy fy) as [iy|]; [|discriminate].
  cbn [res_bind]. intros [= <-]. split; reflexivity.
Qed.

(** C6, amended: a crop commit whose mapped rectangle is empty is not a
    no-op.  The empty slice becomes the cropped and the working image and
    is appended to the undo stack, and the redo stack is cleared; only the
    preview label is left as it was. *)
Theorem empty_crop_is_committed
  (s : state) (x y cw ch : Z) (d : ndarray) (b : box) :
  display_image s = Some d ->
  crop_box (start_x s) (start_y s) x y (shape1 d) (shape0 d) cw ch = Val b ->
  img_x1 b = img_x2 b \/ img_y1 b = img_y2 b ->
  exists c,
    size c = 0 /\
    outcome (finish_crop x y cw ch) s = Val tt /\
    cropped_image (exec (finish_crop x y cw ch) s) = Some c /\
    resized_image (exec (finish_crop x y cw ch) s) = Some c /\
    undo_stack (exec (finish_crop x y cw ch) s) = undo_stack s ++ [c] /\
    redo_stack (exec (finish_crop x y cw ch) s) = [] /\
    tk_crop (exec (finish_crop x y cw ch) s) = tk_crop s.
Proof.
  intros D B E.
  assert (Z0 : size (crop d (img_y1 b) (img_y2 b) (img_x1 b) (img_x2 b)) = 0)
    by (apply crop_empty; exact E).
  exists (crop d (img_y1 b) (img_y2 b) (img_x1 b) (img_x2 b)).
  split; [exact Z0|].
  unfold outcome, exec, finish_crop, bind, modify, get.
  cbn [set_end display_image start_x start_y end_x end_y].
  rewrite D. cbn [or_raise ret lift]. rewrite B.
  rewrite push_undo_eq. cbn [copy].
  rewrite (display_cropped_image_empty _ _ Z0).
  destruct s; repeat split; reflexivity.
Qed.

Lemma empty_crop_is_committed_witness :
  exists c,
    size c = 0 /\
    outcome (finish_crop 1 1 4 3) (sample_run [Load "a.png"; StartCrop 1 1])
    = Val tt /\
    cropped_image (exec (finish_crop 1 1 4 3)
                     (sample_run [Load "a.png"; StartCrop 1 1])) = Some c /\
    resized_image (exec (finish_crop 1 1 4 3)
                     (sample_run [Load "a.png"; StartCrop 1 1])) = Some c /\
    undo_stack (exec (finish_crop 1 1 4 3)
                  (sample_run [Load "a.png"; StartCrop 1 1]))
    = undo_stack (sample_run [Load "a.png"; StartCrop 1 1]) ++ [c] /\
    redo_stack (exec (finish_crop 1 1 4 3)
                  (sample_run [Load "a.png"; StartCrop 1 1])) = [] /\
    tk_crop (exec (finish_crop 1 1 4 3)
               (sample_run [Load "a.png"; StartCrop 1 1]))
    = tk_crop (sample_run [Load "a.png"; StartCrop 1 1]).
Proof.
  apply (empty_crop_is_committed
           (sample_run [Load "a.png"; StartCrop 1 1]) 1 1 4 3
           sample_image (mk_box 1 1 1 1)).
  - vm_compute; reflexivity.
  - vm_compute; reflexivity.
  - left; reflexivity.
Defined.

(** C6 as stated fails: a click at (1, 1) with no drag returns normally,
    makes an empty buffer the working image and grows the undo stack. *)
Lemma click_without_drag_commits_empty_image :
  outcome (finish_crop 1 1 4 3) (sample_run [Load "a.png"; StartCrop 1 1])
  = Val tt /\
  resized_image (sample_run [Load "a.png"; StartCrop 1 1]) = None /\
  resized_image (sample_run [Load "a.png"; StartCrop 1 1; FinishCrop 1 1 4 3])
  = Some (mk_ndarray 0 []) /\
  size (mk_ndarray 0 []) = 0 /\
  undo_stack (sample_run [Load "a.png"; StartCrop 1 1]) = [sample_image] /\
  undo_stack (sample_run [Load "a.png"; StartCrop 1 1; FinishCrop 1 1 4 3])
  = [sample_image; mk_ndarray 0 []].
Proof.
  repeat split; vm_compute; reflexivity.
Qed.

(** ** A canvas of extent zero (C7) *)

Lemma truediv_by_zero (n : Z) : PyFloat.truediv n 0 = Exc ZeroDivisionError.
Proof. reflexivity. Qed.

(** C7, amended: the division by the canvas extent is not guarded and
    there is no geometry error.  With an image shown, a crop commit on a
    canvas of width zero, or of height zero once the horizontal scale has
    been computed, raises ZeroDivisionError; it stores the release point
    and changes nothing else. *)
Theorem finish_crop_zero_canvas
  (s : state) (x y cw ch : Z) (d : ndarray) :
  display_image s = Some d ->
  cw = 0 \/ (ch = 0 /\ exists f, PyFloat.truediv (shape1 d) cw = Val f) ->
  finish_crop x y cw ch s = (Exc ZeroDivisionError, set_end x y s).
Proof.
  intros D H. apply (finish_crop_raises s x y cw ch d _ D).
  unfold crop_box. destruct H as [->|[-> [f ->]]].
  - rewrite truediv_by_zero. reflexivity.
  - cbn [res_bind]. rewrite truediv_by_zero. reflexivity.
Qed.

Lemma finish_crop_zero_canvas_witness :
  finish_crop 3 2 0 3 (sample_run [Load "a.png"; StartCrop 1 1])
  = (Exc ZeroDivisionError,
     set_end 3 2 (sample_run [Load "a.png"; StartCrop 1 1])).
Proof.
  apply (finish_crop_zero_canvas
           (sample_run [Load "a.png"; StartCrop 1 1]) 3 2 0 3 sample_image).
  - vm_compute; reflexivity.
  - left; reflexivity.
Defined.

(** C7 as stated fails: on a canvas of width zero, and on one of height
    zero, the crop commit ends in ZeroDivisionError. *)
Lemma zero_canvas_divides_by_zero :
  outcome (finish_crop 3 2 0 3) (sample_run [Load "a.png"; StartCrop 1 1])
  = Exc ZeroDivisionError /\
  outcome (finish_crop 3 2 4 0) (sample_run [Load "a.png"; StartCrop 1 1])
  = Exc ZeroDivisionError.
Proof.
  split; vm_compute; reflexivity.
Qed.

(** ** Rounding in binary64

    What [binary_round_aux], [SFdiv] and [SFmul] return on the operands the
    editor feeds them: the mantissa has 53 digits and the value is within
    half a unit in the last place of the exact result. *)

(** [digits2_pos] counts binary digits. *)
Lemma digits2_pos_bounds (p : positive) :
  2 ^ (Zpos (digits2_pos p) - 1) <= Zpos p < 2 ^ Zpos (digits2_pos p).
Proof.
  induction p as [p IH|p IH|]; cbn [digits2_pos].
  - rewrite Pos2Z.inj_succ, (Pos2Z.inj_xI p).
    replace (Z.succ (Zpos (digits2_pos p)) - 1)
      with (Z.succ (Zpos (digits2_pos p) - 1)) by lia.
    rewrite !Z.pow_succ_r by lia.
    generalize dependent (2 ^ (Zpos (digits2_pos p) - 1)).
    generalize (2 ^ Zpos (digits2_pos p)). intros; lia.
  - rewrite Pos2Z.inj_succ, (Pos2Z.inj_xO p).
    replace (Z.succ (Zpos (digits2_pos p)) - 1)
      with (Z.succ (Zpos (digits2_pos p) - 1)) by lia.
    rewrite !Z.pow_succ_r by lia.
    generalize dependent (2 ^ (Zpos (digits2_pos p) - 1)).
    generalize (2 ^ Zpos (digits2_pos p)). intros; lia.
  - cbn. lia.
Qed.

(** One right shift halves [m + num / den]: the dropped digit becomes the
    round bit and the old round and sticky bits merge into the sticky bit. *)
Lemma shr_1_located (m : Z) (r s : bool) (num den : Z) :
  0 <= m -> located r s num den ->
  exists num',
    located (shr_r (shr_1 (Build_shr_record m r s)))
            (shr_s (shr_1 (Build_shr_record m r s))) num' (2 * den) /\
    0 <= shr_m (shr_1 (Build_shr_record m r s)) /\
    shr_m (shr_1 (Build_shr_record m r s)) * (2 * den) + num' = m * den + num.
Proof.
  intros M [D L]. unfold located.
  destruct m as [|[p|p|]|p]; try lia; cbn [shr_1 shr_m shr_r shr_s].
  - exists num. destruct r, s; cbn [orb]; lia.
  - exists (den + num). rewrite (Pos2Z.inj_xI p). destruct r, s; cbn [orb]; lia.
  - exists num. rewrite (Pos2Z.inj_xO p). destruct r, s; cbn [orb]; lia.
  - exists (den + num). destruct r, s; cbn [orb]; lia.
Qed.

(** [p] right shifts divide [m + num / den] by [2^p]. *)
Lemma iter_pos_shr_1_located (p : positive) :
  forall (mrs : shr_record) (num den : Z),
    0 <= shr_m mrs -> located (shr_r mrs) (shr_s mrs) num den ->
    exists num',
      located (shr_r (iter_pos shr_1 p mrs)) (shr_s (iter_pos shr_1 p mrs))
              num' (2 ^ Zpos p * den) /\
      0 <= shr_m (iter_pos shr_1 p mrs) /\
      shr_m (iter_pos shr_1 p mrs) * (2 ^ Zpos p * den) + num'
      = shr_m mrs * den + num.
Proof.
  assert (step : forall mrs num den,
             0 <= shr_m mrs -> located (shr_r mrs) (shr_s mrs) num den ->
             exists num',
               located (shr_r (shr_1 mrs)) (shr_s (shr_1 mrs)) num' (2 * den) /\
               0 <= shr_m (shr_1 mrs) /\
               shr_m (shr_1 mrs) * (2 * den) + num' = shr_m mrs * den + num).
  { intros [m r s] num den. apply shr_1_located. }
  induction p as [p IH|p IH|]; intros mrs num den M L; cbn [iter_pos].
  - destruct (step mrs num den M L) as (n1 & L1 & M1 & E1).
    destruct (IH _ _ _ M1 L1) as (n2 & L2 & M2 & E2).
    destruct (IH _ _ _ M2 L2) as (n3 & L3 & M3 & E3).
    exists n3. rewrite (Pos2Z.inj_xI p).
    replace (2 ^ (2 * Zpos p + 1) * den)
      with (2 ^ Zpos p * (2 ^ Zpos p * (2 * den))).
    + split; [exact L3|split; [exact M3|congruence]].
    + rewrite Z.pow_add_r, Z.pow_mul_r by lia.
      replace (2 ^ 2) with 4 by reflexivity.
      rewrite Z.pow_1_r.
      assert (4 ^ Zpos p = 2 ^ Zpos p * 2 ^ Zpos p).
      { rewrite <- Z.pow_mul_l. reflexivity. }
      lia.
  - destruct (IH _ _ _ M L) as (n2 & L2 & M2 & E2).
    destruct (IH _ _ _ M2 L2) as (n3 & L3 & M3 & E3).
    exists n3. rewrite (Pos2Z.inj_xO p).
    replace (2 ^ (2 * Zpos p) * den)
      with (2 ^ Zpos p * (2 ^ Zpos p * den)).
    + split; [exact L3|split; [exact M3|congruence]].
    + rewrite Z.pow_mul_r by lia.
      replace (2 ^ 2) with 4 by reflexivity.
      assert (4 ^ Zpos p = 2 ^ Zpos p * 2 ^ Zpos p).
      { rewrite <- Z.pow_mul_l. reflexivity. }
      lia.
  - destruct (step mrs num den M L) as (n1 & L1 & M1 & E1).
    exists n1. rewrite Z.pow_1_r. split; [exact L1|split; [exact M1|exact E1]].
Qed.

Lemma Zdigits2_bounds (m : Z) :
  0 < m -> 2 ^ (Zdigits2 m - 1) <= m < 2 ^ Zdigits2 m.
Proof.
  destruct m as [|p|p]; try lia. intros _. apply digits2_pos_bounds.
Qed.

Lemma Zdigits2_unique (m k : Z) :
  2 ^ (k - 1) <= m < 2 ^ k -> 0 < k -> Zdigits2 m = k.
Proof.
  intros B K.
  assert (M : 0 < m) by (pose proof (Z.pow_pos_nonneg 2 (k - 1)); lia).
  pose proof (Zdigits2_bounds m M) as D.
  assert (P : 0 < Zdigits2 m) by (destruct m; cbn; lia).
  destruct (Z.lt_trichotomy (Zdigits2 m) k) as [L|[E|L]]; [|exact E|].
  - pose proof (Z.pow_le_mono_r 2 (Zdigits2 m) (k - 1)). lia.
  - pose proof (Z.pow_le_mono_r 2 k (Zdigits2 m - 1)). lia.
Qed.

Lemma located_range (r s : bool) (num den : Z) :
  located r s num den -> 0 <= num < den.
Proof. unfold located. destruct r, s; lia. Qed.

(** Shifting a mantissa right by [n] digits keeps the value
    [m + num / den] and tells where the dropped part lies. *)
Lemma shr_located (m : Z) (l : location) (e n num den : Z) :
  0 <= m -> 0 <= n -> loc_located l num den ->
  exists m' r' s' num',
    shr (shr_record_of_loc m l) e n = (Build_shr_record m' r' s', e + n) /\
    located r' s' num' (2 ^ n * den) /\
    0 <= m' /\
    m' * (2 ^ n * den) + num' = m * den + num.
Proof.
  intros M N L. unfold shr.
  assert (L0 : located (shr_r (shr_record_of_loc m l))
                       (shr_s (shr_record_of_loc m l)) num den)
    by (destruct l as [|[]]; exact L).
  assert (M0 : shr_m (shr_record_of_loc m l) = m) by (destruct l as [|[]]; reflexivity).
  destruct n as [|p|p]; try lia.
  - exists m, (shr_r (shr_record_of_loc m l)), (shr_s (shr_record_of_loc m l)), num.
    rewrite Z.add_0_r, Z.pow_0_r, Z.mul_1_l.
    split; [destruct l as [|[]]; reflexivity|].
    split; [exact L0|]. split; [exact M|reflexivity].
  - destruct (iter_pos_shr_1_located p (shr_record_of_loc m l) num den)
      as (num' & L' & M' & E'); [rewrite M0; exact M|exact L0|].
    destruct (iter_pos shr_1 p (shr_record_of_loc m l)) as [m' r' s'].
    exists m', r', s', num'. cbn [shr_m shr_r shr_s] in *.
    rewrite M0 in E'.
    split; [reflexivity|]. split; [exact L'|]. split; [exact M'|exact E'].
Qed.

(** Rounding picks [m] or [m + 1], at most one half away from
    [m + num / D]. *)
Lemma round_nearest_even_near (m : Z) (r s : bool) (num D : Z) :
  located r s num D ->
  (round_nearest_even m (loc_of_shr_record (Build_shr_record m r s)) = m \/
   round_nearest_even m (loc_of_shr_record (Build_shr_record m r s)) = m + 1) /\
  2 * (m * D + num) - D
  <= 2 * (round_nearest_even m (loc_of_shr_record (Build_shr_record m r s)) * D)
  <= 2 * (m * D + num) + D.
Proof.
  unfold located. intros [HD L].
  destruct r, s; cbn [loc_of_shr_record round_nearest_even];
    try destruct (Z.even m); split; try (now left); try (now right); lia.
Qed.

Lemma fexp_normal (k : Z) : -1074 <= k - 53 -> fexp 53 1024 k = k - 53.
Proof. unfold fexp, emin. lia. Qed.

(** Rounding a positive mantissa [mx] of at least 53 digits, with the
    fraction [num / den] behind it, at exponent [ex]: away from underflow
    and overflow the result is a normal float [m * 2^e] whose distance to
    [(mx + num / den) * 2^ex] is at most half of [2^(ex + digits - 53)]. *)
Lemma binary_round_aux_finite
  (sx : bool) (mx ex : Z) (lx : location) (num den : Z) :
  0 < mx -> loc_located lx num den ->
  53 <= Zdigits2 mx ->
  -1074 <= ex + (Zdigits2 mx - 53) ->
  ex + (Zdigits2 mx - 53) < 971 ->
  exists m e,
    binary_round_aux 53 1024 sx mx ex lx = S754_finite sx m e /\
    2 ^ 52 <= Zpos m < 2 ^ 53 /\
    ex + (Zdigits2 mx - 53) <= e <= ex + (Zdigits2 mx - 53) + 1 /\
    2 * (mx * den + num) - 2 ^ (Zdigits2 mx - 53) * den
    <= 2 * (Zpos m * 2 ^ (e - ex) * den)
    <= 2 * (mx * den + num) + 2 ^ (Zdigits2 mx - 53) * den.
Proof.
  intros M L DG LO HI.
  set (n := Zdigits2 mx - 53) in *.
  assert (N : 0 <= n) by lia.
  unfold binary_round_aux.
  assert (S1 : shr_fexp 53 1024 mx ex lx = shr (shr_record_of_loc mx lx) ex n).
  { unfold shr_fexp. rewrite fexp_normal by lia. f_equal. lia. }
  rewrite S1.
  destruct (shr_located mx lx ex n num den) as (m' & r' & s' & num' & E & L' & M' & V);
    [lia|exact N|exact L|].
  rewrite E. cbn [shr_m].
  pose proof (located_range _ _ _ _ L') as R'.
  pose proof (located_range _ _ _ _ L) as R.
  pose proof (Zdigits2_bounds mx M) as B.
  assert (P2 : 0 < 2 ^ n) by (apply Z.pow_pos_nonneg; lia).
  assert (B1 : 2 ^ 52 * 2 ^ n <= mx < 2 ^ 53 * 2 ^ n).
  { rewrite <- !Z.pow_add_r by lia.
    replace (52 + n) with (Zdigits2 mx - 1) by lia.
    replace (53 + n) with (Zdigits2 mx) by lia. exact B. }
  assert (B2 : 2 ^ 52 <= m' < 2 ^ 53).
  { assert (0 < den) by lia.
    assert (0 < 2 ^ n * den) by lia.
    split.
    - apply Z.lt_succ_r.
      apply (Z.mul_lt_mono_pos_r (2 ^ n * den)); [assumption|]. nia.
    - apply (Z.mul_lt_mono_pos_r (2 ^ n * den)); [assumption|]. nia. }
  destruct (round_nearest_even_near m' r' s' num' (2 ^ n * den) L') as [C NB].
  set (m1 := round_nearest_even m' (loc_of_shr_record (Build_shr_record m' r' s'))) in *.
  assert (C' : m1 < 2 ^ 53 \/ m1 = 2 ^ 53) by lia.
  destruct C' as [C'|C'].
  - assert (D1 : Zdigits2 m1 = 53) by (apply Zdigits2_unique; lia).
    assert (S2 : shr_fexp 53 1024 m1 (ex + n) loc_Exact
                 = (Build_shr_record m1 false false, ex + n)).
    { unfold shr_fexp. rewrite D1, fexp_normal by lia.
      replace (53 + (ex + n) - 53 - (ex + n)) with 0 by lia. reflexivity. }
    rewrite S2. cbn [shr_m].
    destruct m1 as [|p1|p1] eqn:E1; try lia.
    assert (F : (ex + n <=? 1024 - 53) = true) by (apply Z.leb_le; lia).
    rewrite F. exists p1, (ex + n).
    split; [reflexivity|]. split; [lia|]. split; [lia|].
    replace (ex + n - ex) with n by lia.
    replace (Zpos p1 * 2 ^ n * den) with (Zpos p1 * (2 ^ n * den)) by ring.
    rewrite <- V. lia.
  - rewrite C'.
    assert (S2 : shr_fexp 53 1024 (2 ^ 53) (ex + n) loc_Exact
                 = (Build_shr_record (2 ^ 52) false false, ex + n + 1)).
    { unfold shr_fexp.
      replace (Zdigits2 (2 ^ 53)) with 54 by reflexivity.
      rewrite fexp_normal by lia.
      replace (54 + (ex + n) - 53 - (ex + n)) with 1 by lia. reflexivity. }
    rewrite S2. cbn [shr_m].
    assert (F : (ex + n + 1 <=? 1024 - 53) = true) by (apply Z.leb_le; lia).
    change (2 ^ 52) with (Zpos (2 ^ 52)%positive) at 1.
    cbv iota. rewrite F.
    exists (2 ^ 52)%positive, (ex + n + 1).
    split; [reflexivity|]. split; [cbn; lia|]. split; [lia|].
    replace (ex + n + 1 - ex) with (n + 1) by lia.
    rewrite Z.pow_add_r, Z.pow_1_r by lia.
    replace (Zpos (2 ^ 52) * (2 ^ n * 2) * den) with (2 ^ 53 * (2 ^ n * den))
      by (change (Zpos (2 ^ 52)) with (2 ^ 52); change (2 ^ 53) with (2 ^ 52 * 2); ring).
    rewrite <- C', <- V. lia.
Qed.

Lemma Zdigits2_range (m a b : Z) :
  0 <= a -> 2 ^ a <= m < 2 ^ b -> a < Zdigits2 m <= b.
Proof.
  intros A B.
  assert (M : 0 < m) by (pose proof (Z.pow_pos_nonneg 2 a); lia).
  pose proof (Zdigits2_bounds m M) as D.
  assert (P : 0 < Zdigits2 m) by (destruct m; cbn; lia).
  split.
  - destruct (Z.lt_ge_cases a (Zdigits2 m)) as [L|L]; [exact L|].
    pose proof (Z.pow_le_mono_r 2 (Zdigits2 m) a). lia.
  - destruct (Z.le_gt_cases (Zdigits2 m) b) as [L|L]; [exact L|].
    pose proof (Z.pow_le_mono_r 2 b (Zdigits2 m - 1)). lia.
Qed.

Lemma Zdigits2_pos (m : Z) : 0 < m -> 0 < Zdigits2 m.
Proof. destruct m; cbn; lia. Qed.

(** The location [SFdiv] computes for the remainder [r] of a division by
    [d]. *)
Lemma new_location_located (d r : Z) :
  0 <= r < d -> loc_located (new_location d r) r d.
Proof.
  intros R. unfold loc_located, located, new_location.
  destruct (Z.even d) eqn:Ev.
  - unfold new_location_even.
    destruct (Z.eqb_spec r 0) as [->|NZ];
      cbn [shr_r shr_s shr_record_of_loc]; [lia|].
    destruct (Z.compare_spec (2 * r) d);
      cbn [shr_r shr_s shr_record_of_loc]; lia.
  - unfold new_location_odd.
    destruct (Z.eqb_spec r 0) as [->|NZ];
      cbn [shr_r shr_s shr_record_of_loc]; [lia|].
    assert (O : 2 * r <> d).
    { intros <-. rewrite Z.even_mul in Ev. discriminate. }
    destruct (Z.compare_spec (2 * r + 1) d);
      cbn [shr_r shr_s shr_record_of_loc]; lia.
Qed.

(** The quotient of two positive ints below [2^53], rounded: mantissa [m],
    exponent [e <= 0], within half a unit in the last place of [n / d]. *)
Lemma SFdiv_near (pn pd : positive) :
  Zpos pn < 2 ^ 53 -> Zpos pd < 2 ^ 53 ->
  Zdigits2 (Zpos pn) - Zdigits2 (Zpos pd) <= 51 ->
  exists m e,
    SFdiv 53 1024 (S754_finite false pn 0) (S754_finite false pd 0)
    = S754_finite false m e /\
    2 ^ 52 <= Zpos m < 2 ^ 53 /\
    Zdigits2 (Zpos pn) - Zdigits2 (Zpos pd) - 53 <= e <= 0 /\
    e <= Zdigits2 (Zpos pn) - Zdigits2 (Zpos pd) - 51 /\
    2 * (Zpos pn * 2 ^ (- e)) - Zpos pd
    <= 2 * (Zpos m * Zpos pd)
    <= 2 * (Zpos pn * 2 ^ (- e)) + Zpos pd.
Proof.
  intros HN HD HG.
  set (n := Zpos pn) in *. set (d := Zpos pd) in *.
  assert (N0 : 0 < n) by reflexivity. assert (D0 : 0 < d) by reflexivity.
  pose proof (Zdigits2_bounds n N0) as BN.
  pose proof (Zdigits2_bounds d D0) as BD.
  pose proof (Zdigits2_pos n N0) as PN. pose proof (Zdigits2_pos d D0) as PD.
  assert (DN : Zdigits2 n <= 53) by (apply (Zdigits2_range n 0 53); lia).
  assert (DD : Zdigits2 d <= 53) by (apply (Zdigits2_range d 0 53); lia).
  set (s := 53 + Zdigits2 d - Zdigits2 n).
  assert (S0 : 0 < s) by (unfold s; lia).
  cbn [SFdiv xorb]. unfold SFdiv_core_binary.
  fold n d. rewrite !Z.add_0_r, Z.sub_0_r.
  rewrite fexp_normal by lia.
  rewrite Z.min_l by lia.
  replace (0 - (Zdigits2 n - Zdigits2 d - 53)) with s by (unfold s; lia).
  replace (Zdigits2 n - Zdigits2 d - 53) with (- s) by (unfold s; lia).
  destruct s as [|ps|ps] eqn:Es; try lia. rewrite <- Es in *.
  rewrite Z.shiftl_mul_pow2 by lia.
  pose proof (Z_div_mod (n * 2 ^ s) d ltac:(lia)) as DM.
  destruct (Z.div_eucl (n * 2 ^ s) d) as [q r]. destruct DM as [DM R].
  assert (P2 : 0 < 2 ^ s) by (apply Z.pow_pos_nonneg; lia).
  assert (BN' : 2 ^ 52 * 2 ^ Zdigits2 d <= n * 2 ^ s < 2 ^ 54 * 2 ^ (Zdigits2 d - 1)).
  { rewrite <- !Z.pow_add_r by lia.
    replace (52 + Zdigits2 d) with ((Zdigits2 n - 1) + s) by (unfold s; lia).
    replace (54 + (Zdigits2 d - 1)) with (Zdigits2 n + s) by (unfold s; lia).
    rewrite !Z.pow_add_r by lia. nia. }
  assert (BQ : 2 ^ 52 <= q < 2 ^ 54) by nia.
  pose proof (Zdigits2_range q 52 54 ltac:(lia) BQ) as DQ.
  destruct (binary_round_aux_finite false q (- s) (new_location d r) r d)
    as (m & e & E & BM & BE & NB);
    [lia|apply new_location_located; lia|lia|lia|lia|].
  exists m, e. split; [exact E|]. split; [exact BM|].
  split; [unfold s in *; lia|]. split; [unfold s in *; lia|].
  assert (E0 : e <= 0) by (unfold s in *; lia).
  set (t := e - - s) in *. assert (T0 : 0 <= t) by (unfold t; lia).
  assert (PT : 0 < 2 ^ t) by (apply Z.pow_pos_nonneg; lia).
  assert (PS : 2 ^ s = 2 ^ (- e) * 2 ^ t).
  { rewrite <- Z.pow_add_r by lia. f_equal. unfold t. lia. }
  assert (K : 2 ^ (Zdigits2 q - 53) <= 2 ^ t)
    by (apply Z.pow_le_mono_r; unfold t; lia).
  replace (q * d + r) with (n * 2 ^ (- e) * 2 ^ t) in NB by (rewrite PS in DM; lia).
  split.
  - apply (Z.mul_le_mono_pos_r _ _ (2 ^ t)); [exact PT|]. nia.
  - apply (Z.mul_le_mono_pos_r _ _ (2 ^ t)); [exact PT|]. nia.
Qed.

Lemma iter_xO_pow2 (p d : positive) :
  Zpos (Pos.iter xO p d) = Zpos p * 2 ^ Zpos d.
Proof.
  induction d as [|d IH] using Pos.peano_ind.
  - cbn [Pos.iter]. rewrite (Pos2Z.inj_xO p). lia.
  - rewrite Pos.iter_succ, (Pos2Z.inj_xO (Pos.iter xO p d)), IH.
    rewrite Pos2Z.inj_succ, Z.pow_succ_r by lia. ring.
Qed.

(** [float(x)] for [0 < x < 2^53] is [x] itself, on 53 digits. *)
Lemma binary_normalize_exact (px : positive) :
  Zpos px < 2 ^ 53 ->
  exists m e,
    binary_normalize 53 1024 (Zpos px) 0 false = S754_finite false m e /\
    2 ^ 52 <= Zpos m < 2 ^ 53 /\
    -52 <= e <= 0 /\
    Zpos m = Zpos px * 2 ^ (- e).
Proof.
  intros HX. cbn [binary_normalize]. unfold binary_round.
  change (Zpos (digits2_pos px)) with (Zdigits2 (Zpos px)).
  set (x := Zpos px) in *.
  assert (X0 : 0 < x) by reflexivity.
  pose proof (Zdigits2_bounds x X0) as BX.
  pose proof (Zdigits2_pos x X0) as PX.
  assert (DX : Zdigits2 x <= 53) by (apply (Zdigits2_range x 0 53); lia).
  rewrite Z.add_0_r, fexp_normal by lia.
  set (k := 53 - Zdigits2 x).
  assert (A : exists mz, shl_align px 0 (Zdigits2 x - 53) = (mz, - k) /\
                         Zpos mz = x * 2 ^ k).
  { unfold shl_align. rewrite Z.sub_0_r.
    destruct (Zdigits2 x - 53) as [|q|q] eqn:E; try lia.
    - exists px. replace k with 0 by (unfold k; lia).
      split; [reflexivity|]. fold x. lia.
    - exists (Pos.iter xO px q). replace k with (Zpos q) by (unfold k; lia).
      split; [reflexivity|]. apply iter_xO_pow2. }
  destruct A as (mz & -> & MZ).
  assert (PK : 0 < 2 ^ k) by (apply Z.pow_pos_nonneg; unfold k; lia).
  assert (BZ : 2 ^ 52 <= Zpos mz < 2 ^ 53).
  { rewrite MZ.
    assert (E52 : 2 ^ 52 = 2 ^ (Zdigits2 x - 1) * 2 ^ k)
      by (rewrite <- Z.pow_add_r by (unfold k; lia); f_equal; unfold k; lia).
    assert (E53 : 2 ^ 53 = 2 ^ Zdigits2 x * 2 ^ k)
      by (rewrite <- Z.pow_add_r by (unfold k; lia); f_equal; unfold k; lia).
    rewrite E52, E53. nia. }
  assert (DZ : Zdigits2 (Zpos mz) = 53) by (apply Zdigits2_unique; lia).
  destruct (binary_round_aux_finite false (Zpos mz) (- k) loc_Exact 0 1)
    as (m & e & E & BM & BE & NB);
    [lia|unfold loc_located, located; cbn; lia|lia|unfold k; lia|unfold k; lia|].
  rewrite DZ in *. change (2 ^ (53 - 53)) with 1 in NB.
  assert (e = - k).
  { destruct (Z.eq_dec e (- k)) as [->|NE]; [reflexivity|].
    replace (e - - k) with 1 in NB by lia. lia. }
  subst e. replace (- k - - k) with 0 in NB by lia.
  exists m, (- k). split; [exact E|]. split; [exact BM|].
  split; [unfold k; lia|]. rewrite Z.opp_involutive, <- MZ. lia.
Qed.

(** The product of two positive normal floats whose value stays below
    [2^52]: mantissa [m], exponent [e <= 0], within half a unit in the last
    place of the exact product. *)
Lemma SFmul_near (mx my : positive) (ex ey : Z) :
  2 ^ 52 <= Zpos mx < 2 ^ 53 ->
  2 ^ 52 <= Zpos my < 2 ^ 53 ->
  -1000 <= ex + ey -> ex + ey <= 0 ->
  Zpos mx * Zpos my < 2 ^ 52 * 2 ^ (- (ex + ey)) ->
  exists m e,
    SFmul 53 1024 (S754_finite false mx ex) (S754_finite false my ey)
    = S754_finite false m e /\
    2 ^ 52 <= Zpos m < 2 ^ 53 /\
    ex + ey + 52 <= e <= 0 /\
    2 * (Zpos mx * Zpos my * 2 ^ (- e)) - 2 ^ (- (ex + ey))
    <= 2 * (Zpos m * 2 ^ (- (ex + ey)))
    <= 2 * (Zpos mx * Zpos my * 2 ^ (- e)) + 2 ^ (- (ex + ey)).
Proof.
  intros BX BY LO HI V.
  cbn [SFmul xorb]. rewrite Pos2Z.inj_mul.
  set (P := Zpos mx * Zpos my) in *. set (g := ex + ey) in *.
  assert (BP : 2 ^ 104 <= P < 2 ^ 106).
  { change (2 ^ 104) with (2 ^ 52 * 2 ^ 52).
    change (2 ^ 106) with (2 ^ 53 * 2 ^ 53). unfold P. nia. }
  pose proof (Zdigits2_range P 104 106 ltac:(lia) BP) as DP.
  assert (P0 : 0 < P) by lia.
  pose proof (Zdigits2_bounds P P0) as BD.
  assert (DV : Zdigits2 P + g <= 52).
  { destruct (Z.le_gt_cases (Zdigits2 P + g) 52) as [L|L]; [exact L|].
    pose proof (Z.pow_le_mono_r 2 (52 + - g) (Zdigits2 P - 1)).
    rewrite Z.pow_add_r in * by lia. lia. }
  destruct (binary_round_aux_finite false P g loc_Exact 0 1)
    as (m & e & E & BM & BE & NB);
    [lia|unfold loc_located, located; cbn; lia|lia|lia|lia|].
  exists m, e. split; [exact E|]. split; [exact BM|]. split; [lia|].
  set (t := e - g) in *. assert (T0 : 0 <= t) by (unfold t; lia).
  assert (PT : 0 < 2 ^ (- e)) by (apply Z.pow_pos_nonneg; lia).
  assert (PG : 2 ^ (- g) = 2 ^ (- e) * 2 ^ t).
  { rewrite <- Z.pow_add_r by lia. f_equal. unfold t. lia. }
  assert (K : 2 ^ (Zdigits2 P - 53) <= 2 ^ t)
    by (apply Z.pow_le_mono_r; unfold t; lia).
  rewrite PG. rewrite !Z.mul_1_r, Z.add_0_r in NB. nia.
Qed.

(** ** Python's float operations on the editor's operands *)

Lemma Zdigits2_le (m k : Z) : 0 < m -> m < 2 ^ k -> 0 <= k -> Zdigits2 m <= k.
Proof.
  intros M B K. apply (Zdigits2_range m 0 k); [lia|]. cbn. lia.
Qed.

(** [n / d] for [0 < n < 2^52] and [0 < d < 2^53]. *)
Lemma truediv_near (n d : Z) :
  0 < n < 2 ^ 52 -> 0 < d < 2 ^ 53 ->
  exists m e,
    PyFloat.truediv n d = Val (S754_finite false m e) /\
    2 ^ 52 <= Zpos m < 2 ^ 53 /\
    Zdigits2 n - Zdigits2 d - 53 <= e <= 0 /\
    e <= Zdigits2 n - Zdigits2 d - 51 /\
    2 * (n * 2 ^ (- e)) - d <= 2 * (Zpos m * d) <= 2 * (n * 2 ^ (- e)) + d.
Proof.
  intros HN HD. unfold PyFloat.truediv.
  destruct (Z.eqb_spec d 0) as [->|_]; [lia|].
  destruct n as [|pn|pn]; try lia. destruct d as [|pd|pd]; try lia.
  cbn [PyFloat.Z2SF].
  destruct (SFdiv_near pn pd) as (m & e & E & BM & BE & BE' & NB).
  - lia.
  - lia.
  - pose proof (Zdigits2_le (Zpos pn) 52). pose proof (Zdigits2_pos (Zpos pd)). lia.
  - exists m, e. unfold PyFloat.prec, PyFloat.emax. rewrite E.
    repeat split; lia.
Qed.

Lemma truediv_zero (d : Z) :
  d <> 0 -> exists s, PyFloat.truediv 0 d = Val (S754_zero s).
Proof.
  intros D. unfold PyFloat.truediv.
  destruct (Z.eqb_spec d 0) as [->|_]; [lia|].
  destruct d as [|pd|pd]; try lia; eexists; reflexivity.
Qed.

(** [int(n / d)] is the floor quotient as long as [n] stays below [2^52]. *)
Lemma int_truediv_floor (n d : Z) :
  0 <= n < 2 ^ 52 -> 0 < d < 2 ^ 53 ->
  res_bind (PyFloat.truediv n d) PyFloat.to_int = Val (n / d).
Proof.
  intros HN HD.
  destruct (Z.eq_dec n 0) as [->|NZ].
  - destruct (truediv_zero d) as [s ->]; [lia|]. reflexivity.
  - destruct (truediv_near n d) as (m & e & E & BM & BE & BE' & NB); [lia|lia|].
    rewrite E. cbn [res_bind PyFloat.to_int cond_Zopp]. f_equal.
    rewrite Z.shiftl_div_pow2 by lia.
    set (F := 2 ^ (- e)) in *.
    assert (PF : 0 < F) by (apply Z.pow_pos_nonneg; lia).
    pose proof (Zdigits2_le n 52 ltac:(lia) ltac:(lia) ltac:(lia)) as DN.
    pose proof (Zdigits2_bounds d ltac:(lia)) as BD.
    pose proof (Zdigits2_pos d ltac:(lia)) as PD.
    assert (G : 2 ^ Zdigits2 d <= 2 * F).
    { replace (2 * F) with (2 ^ (1 + - e))
        by (rewrite Z.pow_add_r by lia; reflexivity).
      apply Z.pow_le_mono_r; lia. }
    pose proof (Z_div_mod n d ltac:(lia)) as DM.
    destruct (Z.div_eucl n d) as [k j] eqn:Ed.
    assert (K : n / d = k) by (unfold Z.div; rewrite Ed; reflexivity).
    rewrite K. destruct DM as [DM J].
    symmetry. apply (Z.div_unique_pos (Zpos m) F k (Zpos m - k * F)); [|lia].
    subst n. nia.
Qed.

Lemma scaled_zero (s : bool) (m : positive) (e : Z) :
  scaled 0 (S754_finite s m e) = Val 0.
Proof. reflexivity. Qed.

(** [int(x * f)] for an int [0 < x < 2^53] and a positive normal float
    [f = ms * 2^es] whose product with [x] stays below [2^52]. *)
Lemma scaled_near (x : Z) (ms : positive) (es : Z) :
  0 < x < 2 ^ 53 ->
  2 ^ 52 <= Zpos ms < 2 ^ 53 ->
  -900 <= es <= 0 ->
  x * Zpos ms < 2 ^ 52 * 2 ^ (- es) ->
  exists m e,
    scaled x (S754_finite false ms es) = Val (Zpos m / 2 ^ (- e)) /\
    2 ^ 52 <= Zpos m < 2 ^ 53 /\
    e <= 0 /\
    2 * (x * Zpos ms * 2 ^ (- e)) - 2 ^ (- es)
    <= 2 * (Zpos m * 2 ^ (- es))
    <= 2 * (x * Zpos ms * 2 ^ (- e)) + 2 ^ (- es).
Proof.
  intros HX BS HE V. unfold scaled, PyFloat.int_mul, PyFloat.of_int.
  destruct x as [|px|px]; try lia.
  destruct (binary_normalize_exact px) as (mf & ef & E & BF & BEf & VF); [lia|].
  unfold PyFloat.prec, PyFloat.emax. rewrite E. cbn [res_bind].
  assert (PF : 0 < 2 ^ (- ef)) by (apply Z.pow_pos_nonneg; lia).
  assert (PG : 2 ^ (- (ef + es)) = 2 ^ (- ef) * 2 ^ (- es)).
  { rewrite <- Z.pow_add_r by lia. f_equal. lia. }
  destruct (SFmul_near mf ms ef es) as (m & e & M & BM & BE & NB);
    [exact BF|exact BS|lia|lia|rewrite PG, VF; nia|].
  rewrite M. cbn [PyFloat.to_int cond_Zopp].
  rewrite Z.shiftl_div_pow2 by lia.
  exists m, e. split; [reflexivity|]. split; [exact BM|]. split; [lia|].
  rewrite PG, VF in NB.
  split; apply (Z.mul_le_mono_pos_r _ _ (2 ^ (- ef))); try exact PF; nia.
Qed.

(** The arithmetic behind the containment of a mapped coordinate. *)
Lemma rounded_product_below (sw dw x Es Ep ms mp : Z) :
  0 < sw -> 0 < dw < 2 ^ 31 -> 0 < x < dw -> 0 < Es -> 0 < Ep ->
  2 ^ 52 <= ms -> 2 * (ms * dw) <= 2 * (sw * Es) + dw ->
  2 ^ 52 <= mp -> 2 * (mp * Es) <= 2 * (x * ms * Ep) + Es ->
  mp < sw * Ep.
Proof.
  intros SW DW X HEs HEp MS NS MP NP.
  destruct (Z.lt_ge_cases mp (sw * Ep)) as [L|L]; [exact L|exfalso].
  assert (XE : 0 <= x * Ep) by (apply Z.mul_nonneg_nonneg; lia).
  assert (ED : 0 <= Es * dw) by (apply Z.mul_nonneg_nonneg; lia).
  assert (T0 : 0 <= sw * Ep * Es) by (repeat apply Z.mul_nonneg_nonneg; lia).
  pose proof (Z.mul_le_mono_nonneg_r _ _ dw ltac:(lia) MS) as P1.
  pose proof (Z.mul_le_mono_nonneg_r _ _ dw ltac:(lia) NP) as P2.
  pose proof (Z.mul_le_mono_nonneg_r _ _ (x * Ep) XE NS) as P3.
  pose proof (Z.mul_le_mono_nonneg_r _ _ (2 * (Es * dw)) ltac:(lia) L) as P4.
  pose proof (Z.mul_nonneg_nonneg _ (dw - x - 1) T0 ltac:(lia)) as P5.
  assert (P6a : x * dw <= 2 ^ 31 * dw)
    by (apply Z.mul_le_mono_nonneg_r; lia).
  assert (P6b : x * dw < sw * Es) by lia.
  pose proof (proj1 (Z.mul_lt_mono_pos_r Ep _ _ HEp) P6b) as P6.
  pose proof (Z.mul_le_mono_nonneg_r _ _ (Es * dw) ED MP) as P7.
  pose proof (Z.mul_nonneg_nonneg _ (2 ^ 53 - 3 - 2 * x) T0 ltac:(lia)) as P8.
  lia.
Qed.

(** Two values Python prints: [1 / 49] is [0.02040816326530612], and
    [49 * (1 / 49)] is [0.9999999999999999], so [int(49 * (1 / 49))] is 0
    where exact arithmetic would give 1. *)
Lemma truediv_1_49 :
  PyFloat.truediv 1 49 = Val (S754_finite false 5882252574524729 (-58)).
Proof. vm_compute. reflexivity. Qed.

Lemma scaled_49_of_1_49 :
  res_bind (PyFloat.truediv 1 49) (scaled 49) = Val 0.
Proof. vm_compute. reflexivity. Qed.

(** ** The mapped rectangle lies in the image (C5) *)

(** One axis of the mapping: the scale factor is a float, and every
    coordinate on the canvas lands inside the image. *)
Lemma axis_in_image (src cv : Z) :
  0 < src <= int_max -> 0 < cv <= int_max ->
  exists f,
    PyFloat.truediv src cv = Val f /\
    forall x, 0 <= x < cv -> exists i, scaled x f = Val i /\ 0 <= i < src.
Proof.
  unfold int_max. intros HS HC.
  destruct (truediv_near src cv) as (m & e & E & BM & BE & BE' & NB);
    [lia|lia|].
  exists (S754_finite false m e). split; [exact E|].
  intros x HX.
  destruct (Z.eq_dec x 0) as [->|NZ].
  - exists 0. split; [apply scaled_zero|lia].
  - pose proof (Zdigits2_le cv 31 ltac:(lia) ltac:(lia) ltac:(lia)) as DC.
    pose proof (Zdigits2_pos src ltac:(lia)) as DS.
    set (Es := 2 ^ (- e)) in *.
    assert (PE : 0 < Es) by (apply Z.pow_pos_nonneg; lia).
    assert (V : x * Zpos m < 2 ^ 52 * Es).
    { pose proof (Z.mul_le_mono_nonneg_r _ _ Es ltac:(lia) (proj2 HS)) as Q1.
      assert (Q2 : x * Zpos m < Zpos m * cv) by nia.
      lia. }
    destruct (scaled_near x m e) as (mp & ep & S & BP & EP & NP);
      [lia|exact BM|lia|exact V|].
    exists (Zpos mp / 2 ^ (- ep)). split; [exact S|].
    assert (PP : 0 < 2 ^ (- ep)) by (apply Z.pow_pos_nonneg; lia).
    split; [apply Z.div_pos; lia|].
    apply Z.div_lt_upper_bound; [exact PP|].
    rewrite Z.mul_comm.
    apply (rounded_product_below src cv x Es (2 ^ (- ep)) (Zpos m) (Zpos mp));
      try lia.
Qed.

(** C5: for gesture points inside the canvas and positive canvas and image
    extents as OpenCV and Tk hold them (C ints, at most 2^31 - 1), the
    mapped rectangle exists and both of its corners lie within
    [0, src_w) x [0, src_h). *)
Theorem crop_box_in_image (sx sy ex ey src_w src_h canvas_w canvas_h : Z) :
  0 < src_w <= int_max -> 0 < src_h <= int_max ->
  0 < canvas_w <= int_max -> 0 < canvas_h <= int_max ->
  on_canvas sx sy canvas_w canvas_h ->
  on_canvas ex ey canvas_w canvas_h ->
  exists b,
    crop_box sx sy ex ey src_w src_h canvas_w canvas_h = Val b /\
    in_image (img_x1 b) (img_y1 b) src_w src_h /\
    in_image (img_x2 b) (img_y2 b) src_w src_h.
Proof.
  intros SW SH CW CH [SX SY] [EX EY].
  destruct (axis_in_image src_w canvas_w SW CW) as (fx & FX & AX).
  destruct (axis_in_image src_h canvas_h SH CH) as (fy & FY & AY).
  destruct (AX (Z.min sx ex) ltac:(lia)) as (x1 & X1 & BX1).
  destruct (AY (Z.min sy ey) ltac:(lia)) as (y1 & Y1 & BY1).
  destruct (AX (Z.max sx ex) ltac:(lia)) as (x2 & X2 & BX2).
  destruct (AY (Z.max sy ey) ltac:(lia)) as (y2 & Y2 & BY2).
  exists (mk_box x1 y1 x2 y2).
  unfold crop_box. rewrite FX, FY. cbn [res_bind].
  rewrite X1, Y1, X2, Y2. cbn [res_bind].
  split; [reflexivity|]. split; split; assumption.
Qed.

Lemma crop_box_in_image_witness :
  exists b,
    crop_box 50 50 150 150 400 300 400 300 = Val b /\
    in_image (img_x1 b) (img_y1 b) 400 300 /\
    in_image (img_x2 b) (img_y2 b) 400 300.
Proof.
  apply (crop_box_in_image 50 50 150 150 400 300 400 300);
    unfold int_max, on_canvas; lia.
Defined.

(** Why the extents are bounded: the float arithmetic keeps a point inside
    the image only while the extents fit a double.  On a canvas and an
    image both [2^54] wide, which neither OpenCV nor Tk can hand to the
    callback, the point [2^54 - 1] would map to column [2^54]. *)
Lemma crop_box_leaves_huge_image :
  on_canvas 0 0 (2 ^ 54) 1 /\
  on_canvas (2 ^ 54 - 1) 0 (2 ^ 54) 1 /\
  crop_box 0 0 (2 ^ 54 - 1) 0 (2 ^ 54) 1 (2 ^ 54) 1
  = Val (mk_box 0 0 (2 ^ 54) 0) /\
  ~ in_image (2 ^ 54) 0 (2 ^ 54) 1.
Proof.
  unfold on_canvas, in_image.
  split; [lia|]. split; [lia|]. split; [vm_compute; reflexivity|lia].
Qed.

(** The mapper does not clamp: a drag released outside the canvas maps
    outside the image. *)
Lemma crop_box_does_not_clamp :
  crop_box 50 50 450 350 400 300 400 300 = Val (mk_box 50 50 450 350) /\
  crop_box 50 50 (-5) (-5) 400 300 400 300 = Val (mk_box (-5) (-5) 50 50).
Proof. split; vm_compute; reflexivity. Qed.

(** The scenario of the specification: a 100 x 100 region at (50, 50). *)
Lemma crop_box_scenario :
  crop_box 50 50 150 150 400 300 400 300 = Val (mk_box 50 50 150 150).
Proof. vm_compute. reflexivity. Qed.

(** ** The resize slider (C8) *)

Lemma shape0_nonneg (a : ndarray) : 0 <= shape0 a.
Proof. unfold shape0. lia. Qed.

(** [int(extent * percent / 100)] for an extent that fits a C int and a
    slider position. *)
Lemma percent_of_extent (extent percent : Z) :
  0 <= extent <= int_max -> 10 <= percent <= 200 ->
  res_bind (PyFloat.truediv (extent * percent) 100) PyFloat.to_int
  = Val (extent * percent / 100).
Proof.
  unfold int_max. intros E P. apply int_truediv_floor; [|lia].
  split; [nia|].
  assert (extent * percent <= (2 ^ 31 - 1) * 200) by nia. lia.
Qed.

(** [resize_image] on a crop whose extents fit a C int: the collaborator
    is asked for the floor extents of the crop baseline. *)
Lemma resize_image_eq
  (cv2_resize : ndarray -> Z -> Z -> option ndarray)
  (s : state) (c : ndarray) (p : Z) :
  cropped_image s = Some c ->
  0 <= shape1 c <= int_max -> shape0 c <= int_max -> 10 <= p <= 200 ->
  match cv2_resize c (shape1 c * p / 100) (shape0 c * p / 100) with
  | Some r =>
      exists v, resize_image cv2_resize p s
                = (Val tt, set_tk_crop v (set_resized_image (Some r) s))
  | None => resize_image cv2_resize p s = (Exc Cv2Error, s)
  end.
Proof.
  intros C W H P. unfold resize_image, bind, get, lift. rewrite C.
  rewrite (percent_of_extent (shape1 c) p W P).
  rewrite (percent_of_extent (shape0 c) p) by (pose proof (shape0_nonneg c); lia).
  destruct (cv2_resize c (shape1 c * p / 100) (shape0 c * p / 100)) as [r|];
    [|reflexivity].
  cbn [or_raise ret modify].
  match goal with
  | |- context [display_cropped_image ?i ?st] =>
      destruct (display_cropped_image_eq i st) as [v ->]
  end.
  exists v. reflexivity.
Qed.

Lemma resize_nearest_resizes_to_size : resizes_to_size resize_nearest.
Proof.
  intros src w h S W H. unfold resize_nearest.
  destruct (Z.eqb_spec (size src) 0) as [E|_]; [lia|].
  destruct (Z.leb_spec w 0) as [L|_]; [lia|].
  destruct (Z.leb_spec h 0) as [L|_]; [lia|].
  cbn [orb]. eexists. split; [reflexivity|]. split; [reflexivity|].
  unfold shape0. cbn [rows]. rewrite length_map, length_seq. lia.
Qed.

(** C8, amended: for a committed crop of width [w] and height [h] that fit
    a C int, and a percent [p] in 10..200 for which [w * p / 100] and
    [h * p / 100] are at least 1, [resize_image] asks the resize
    collaborator for a [w * p / 100] by [h * p / 100] image of the cropped
    baseline and makes the result the working image; the cropped image and
    both stacks stay as they are. *)
Theorem resize_image_from_crop_baseline
  (cv2_resize : ndarray -> Z -> Z -> option ndarray)
  (s : state) (c : ndarray) (p : Z) :
  resizes_to_size cv2_resize ->
  cropped_image s = Some c ->
  shape1 c <= int_max -> shape0 c <= int_max -> 10 <= p <= 200 ->
  0 < shape1 c * p / 100 -> 0 < shape0 c * p / 100 ->
  exists r,
    cv2_resize c (shape1 c * p / 100) (shape0 c * p / 100) = Some r /\
    outcome (resize_image cv2_resize p) s = Val tt /\
    resized_image (exec (resize_image cv2_resize p) s) = Some r /\
    shape1 r = shape1 c * p / 100 /\
    shape0 r = shape0 c * p / 100 /\
    cropped_image (exec (resize_image cv2_resize p) s) = Some c /\
    undo_stack (exec (resize_image cv2_resize p) s) = undo_stack s /\
    redo_stack (exec (resize_image cv2_resize p) s) = redo_stack s.
Proof.
  intros K C W H P PW PH.
  assert (W0 : 0 < shape1 c).
  { destruct (Z.lt_ge_cases 0 (shape1 c)) as [L|L]; [exact L|].
    assert (shape1 c * p / 100 <= 0); [|lia].
    apply Z.div_le_upper_bound; nia. }
  assert (H0 : 0 < shape0 c).
  { destruct (Z.lt_ge_cases 0 (shape0 c)) as [L|L]; [exact L|].
    assert (shape0 c * p / 100 <= 0); [|lia].
    apply Z.div_le_upper_bound; nia. }
  destruct (K c (shape1 c * p / 100) (shape0 c * p / 100))
    as (r & R & R1 & R0); [unfold size; nia|exact PW|exact PH|].
  exists r. split; [exact R|].
  pose proof (resize_image_eq cv2_resize s c p C ltac:(lia) H P) as Q.
  rewrite R in Q. destruct Q as [v Q].
  unfold outcome, exec. rewrite Q. cbn.
  repeat split; assumption.
Qed.

Lemma resize_image_from_crop_baseline_witness :
  exists r,
    resize_nearest (crop sample_image 1 2 1 3) 4 2 = Some r /\
    resized_image (exec (resize_image resize_nearest 200)
                     (sample_run loaded_and_cropped)) = Some r /\
    shape1 r = 4 /\ shape0 r = 2 /\
    undo_stack (exec (resize_image resize_nearest 200)
                  (sample_run loaded_and_cropped))
    = undo_stack (sample_run loaded_and_cropped).
Proof.
  destruct (resize_image_from_crop_baseline resize_nearest
              (sample_run loaded_and_cropped) (crop sample_image 1 2 1 3) 200
              resize_nearest_resizes_to_size)
    as (r & R & _ & W & R1 & R0 & _ & U & _).
  - vm_compute; reflexivity.
  - vm_compute; discriminate.
  - vm_compute; discriminate.
  - lia.
  - vm_compute; reflexivity.
  - vm_compute; reflexivity.
  - exists r. exact (conj R (conj W (conj R1 (conj R0 U)))).
Defined.

(** C8 as stated fails where a floor extent is zero: for the 2 x 1 crop at
    10 percent the requested size is 0 x 0, the resize is rejected, and the
    working image stays the 2 x 1 crop. *)
Lemma resize_to_zero_extent_raises :
  cropped_image (sample_run loaded_and_cropped)
  = Some (crop sample_image 1 2 1 3) /\
  shape1 (crop sample_image 1 2 1 3) * 10 / 100 = 0 /\
  shape0 (crop sample_image 1 2 1 3) * 10 / 100 = 0 /\
  outcome (resize_image resize_nearest 10) (sample_run loaded_and_cropped)
  = Exc Cv2Error /\
  resized_image (exec (resize_image resize_nearest 10)
                   (sample_run loaded_and_cropped))
  = Some (crop sample_image 1 2 1 3) /\
  shape1 (crop sample_image 1 2 1 3) = 2.
Proof.
  repeat split; vm_compute; reflexivity.
Qed.

(** The scenario of the specification: a 100 x 100 baseline asks for
    50 x 50 at 50 percent and for 200 x 200 at 200 percent. *)
Lemma percent_of_extent_scenario :
  res_bind (PyFloat.truediv (100 * 50) 100) PyFloat.to_int = Val 50 /\
  res_bind (PyFloat.truediv (100 * 200) 100) PyFloat.to_int = Val 200.
Proof. split; vm_compute; reflexivity. Qed.

(** ** More on the history: what undo, redo and the commits do together *)

(** X1: [undo] and [redo] return normally in every state: the [pop] and the
    [undo_stack[-1]] they make never meet an empty list. *)
Theorem undo_redo_never_raise (s : state) :
  outcome undo s = Val tt /\ outcome redo s = Val tt.
Proof.
  split.
  - destruct (Nat.le_gt_cases (length (undo_stack s)) 1) as [L|L].
    + unfold outcome. rewrite (undo_short s L). reflexivity.
    + destruct (two_or_more _ L) as (l & below & top & U).
      destruct (undo_step s l below top U) as [v E].
      unfold outcome. rewrite E. reflexivity.
  - destruct (snoc_cases (redo_stack s)) as [R|(l & x & R)].
    + unfold outcome. rewrite (redo_empty s R). reflexivity.
    + destruct (redo_step s l x R) as [v E].
      unfold outcome. rewrite E. reflexivity.
Qed.

(** X2: every commit discards the redoable edits: after a crop commit, a
    filter or a load that pushed a snapshot, [redo] changes nothing. *)
Theorem redo_after_commit_does_nothing
  (imread : string -> option ndarray) (edge_bgr : ndarray -> option ndarray)
  (s : state) :
  (forall x y cw ch,
     outcome (finish_crop x y cw ch) s = Val tt ->
     redo (exec (finish_crop x y cw ch) s)
     = (Val tt, exec (finish_crop x y cw ch) s)) /\
  (forall r edges,
     resized_image s = Some r -> edge_bgr r = Some edges ->
     redo (exec (apply_edge edge_bgr) s)
     = (Val tt, exec (apply_edge edge_bgr) s)) /\
  (forall path img,
     path <> ""%string -> imread path = Some img ->
     redo (exec (load_image imread path) s)
     = (Val tt, exec (load_image imread path) s)).
Proof.
  split; [|split].
  - intros x y cw ch O. apply redo_empty.
    unfold outcome in O. unfold exec.
    destruct (finish_crop x y cw ch s) as [[[]|e] s'] eqn:F; [|discriminate].
    destruct (finish_crop_inv _ _ _ _ _ _ F) as (d & b & D & B).
    destruct (finish_crop_returns s x y cw ch d b D B) as [v E].
    rewrite E in F. injection F as <-. reflexivity.
  - intros r edges R E. apply redo_empty.
    destruct (apply_edge_returns edge_bgr s r edges R E) as [v A].
    unfold exec. rewrite A. reflexivity.
  - intros path img P I. apply redo_empty.
    unfold exec. rewrite (load_image_decoded imread s path img P I).
    reflexivity.
Qed.

Lemma redo_after_commit_does_nothing_witness :
  redo (exec (finish_crop 3 2 4 3)
          (sample_run (loaded_and_cropped ++ [Undo; StartCrop 1 1])))
  = (Val tt,
     exec (finish_crop 3 2 4 3)
       (sample_run (loaded_and_cropped ++ [Undo; StartCrop 1 1]))).
Proof.
  apply (proj1 (redo_after_commit_does_nothing sample_imread edge_threshold
                  (sample_run (loaded_and_cropped ++ [Undo; StartCrop 1 1])))).
  vm_compute. reflexivity.
Defined.

(** X3: a crop commit followed by [undo] brings back the snapshot that was
    on top before the crop and the undo stack as it was, with the crop on
    the redo stack; [cropped_image] is not part of what [undo] restores and
    stays the undone crop. *)
Theorem undo_after_crop
  (s s' : state) (x y cw ch : Z) (l : list ndarray) (t : ndarray) :
  finish_crop x y cw ch s = (Val tt, s') ->
  undo_stack s = l ++ [t] ->
  exists c,
    cropped_image s' = Some c /\
    resized_image (exec undo s') = Some t /\
    undo_stack (exec undo s') = undo_stack s /\
    redo_stack (exec undo s') = [c] /\
    cropped_image (exec undo s') = Some c.
Proof.
  intros F U.
  destruct (finish_crop_inv _ _ _ _ _ _ F) as (d & b & D & B).
  destruct (finish_crop_returns s x y cw ch d b D B) as [v E].
  rewrite E in F. injection F as <-.
  set (c := crop d (img_y1 b) (img_y2 b) (img_x1 b) (img_x2 b)).
  exists c. split; [reflexivity|].
  match goal with
  | |- context [exec undo ?st] =>
      destruct (undo_step st l t c) as [w W];
      [cbn; rewrite U, <- app_assoc; reflexivity|];
      unfold exec; rewrite W
  end.
  cbn. rewrite U. repeat split; reflexivity.
Qed.

Lemma undo_after_crop_witness :
  exists c,
    cropped_image (sample_run loaded_and_cropped) = Some c /\
    resized_image (exec undo (sample_run loaded_and_cropped))
    = Some sample_image /\
    undo_stack (exec undo (sample_run loaded_and_cropped))
    = undo_stack (sample_run [Load "a.png"; StartCrop 1 1]) /\
    redo_stack (exec undo (sample_run loaded_and_cropped)) = [c] /\
    cropped_image (exec undo (sample_run loaded_and_cropped)) = Some c.
Proof.
  apply (undo_after_crop (sample_run [Load "a.png"; StartCrop 1 1])
           (sample_run loaded_and_cropped) 3 2 4 3 [] sample_image).
  - vm_compute. reflexivity.
  - vm_compute. reflexivity.
Defined.

(** X4: [redo] followed by [undo] gives back both stacks, and the working
    image is the top of the undo stack. *)
Theorem redo_then_undo_restores
  (s : state) (u r : list ndarray) (t x : ndarray) :
  undo_stack s = u ++ [t] ->
  redo_stack s = r ++ [x] ->
  undo_stack (exec undo (exec redo s)) = undo_stack s /\
  redo_stack (exec undo (exec redo s)) = redo_stack s /\
  resized_image (exec undo (exec redo s)) = Some t.
Proof.
  intros U R. destruct (redo_step s r x R) as [v E].
  unfold exec at 2 4 6. rewrite E.
  match goal with
  | |- context [exec undo ?st] =>
      destruct (undo_step st u t x) as [w W];
      [cbn; rewrite U, <- app_assoc; reflexivity|];
      unfold exec; rewrite W
  end.
  cbn. rewrite U, R. repeat split; reflexivity.
Qed.

Lemma redo_then_undo_restores_witness :
  undo_stack (exec undo (exec redo (sample_run (loaded_and_cropped ++ [Undo]))))
  = undo_stack (sample_run (loaded_and_cropped ++ [Undo])) /\
  redo_stack (exec undo (exec redo (sample_run (loaded_and_cropped ++ [Undo]))))
  = redo_stack (sample_run (loaded_and_cropped ++ [Undo])) /\
  resized_image
    (exec undo (exec redo (sample_run (loaded_and_cropped ++ [Undo]))))
  = Some sample_image.
Proof.
  apply (redo_then_undo_restores (sample_run (loaded_and_cropped ++ [Undo]))
           [] [] sample_image (crop sample_image 1 2 1 3));
    vm_compute; reflexivity.
Defined.

(** ** The filter and the history *)

(** The state after a filter and one [undo]. *)
Lemma apply_edge_then_undo
  (edge_bgr : ndarray -> option ndarray)
  (s : state) (l : list ndarray) (t r edges : ndarray) :
  resized_image s = Some r ->
  edge_bgr r = Some edges ->
  undo_stack s = l ++ [t] ->
  exists v,
    exec undo (exec (apply_edge edge_bgr) s)
    = set_tk_crop v
        (set_resized_image (Some t)
           (set_redo_stack [r] (set_undo_stack (l ++ [t]) s))).
Proof.
  intros R E U. destruct (apply_edge_returns edge_bgr s r edges R E) as [v A].
  unfold exec at 2. rewrite A.
  match goal with
  | |- context [exec undo ?st] =>
      destruct (undo_step st l t r) as [w W];
      [cbn; rewrite U, <- app_assoc; reflexivity|];
      unfold exec; rewrite W
  end.
  exists w. destruct s; reflexivity.
Qed.

(** X5: a filter followed by [undo]: the working image becomes the snapshot
    that was on top of the undo stack before the filter (the image before
    the filter when the top was the working image), the undo stack is as
    before the filter, and the redo stack holds the image before the
    filter, not the filtered one. *)
Theorem undo_after_filter
  (edge_bgr : ndarray -> option ndarray)
  (s : state) (l : list ndarray) (t r edges : ndarray) :
  resized_image s = Some r ->
  edge_bgr r = Some edges ->
  undo_stack s = l ++ [t] ->
  resized_image (exec undo (exec (apply_edge edge_bgr) s)) = Some t /\
  undo_stack (exec undo (exec (apply_edge edge_bgr) s)) = undo_stack s /\
  redo_stack (exec undo (exec (apply_edge edge_bgr) s)) = [r].
Proof.
  intros R E U.
  destruct (apply_edge_then_undo edge_bgr s l t r edges R E U) as [v ->].
  cbn. rewrite U. repeat split; reflexivity.
Qed.

Lemma undo_after_filter_witness :
  resized_image (exec undo (exec (apply_edge edge_threshold)
                              (sample_run loaded_and_cropped)))
  = Some (crop sample_image 1 2 1 3) /\
  undo_stack (exec undo (exec (apply_edge edge_threshold)
                           (sample_run loaded_and_cropped)))
  = undo_stack (sample_run loaded_and_cropped) /\
  redo_stack (exec undo (exec (apply_edge edge_threshold)
                           (sample_run loaded_and_cropped)))
  = [crop sample_image 1 2 1 3].
Proof.
  apply (undo_after_filter edge_threshold (sample_run loaded_and_cropped)
           [sample_image] (crop sample_image 1 2 1 3)
           (crop sample_image 1 2 1 3)
           (mk_ndarray 2 [[(255, 255, 255); (255, 255, 255)]]));
    vm_compute; reflexivity.
Defined.

(** X6: a filter, [undo], then [redo]: the working image is the image
    before the filter again, which is also what the undo stack gets back;
    the filtered image is in neither stack, so [redo] cannot bring a filter
    back. *)
Theorem redo_does_not_bring_filter_back
  (edge_bgr : ndarray -> option ndarray)
  (s : state) (l : list ndarray) (t r edges : ndarray) :
  resized_image s = Some r ->
  edge_bgr r = Some edges ->
  undo_stack s = l ++ [t] ->
  resized_image (exec redo (exec undo (exec (apply_edge edge_bgr) s)))
  = Some r /\
  undo_stack (exec redo (exec undo (exec (apply_edge edge_bgr) s)))
  = undo_stack s ++ [r] /\
  redo_stack (exec redo (exec undo (exec (apply_edge edge_bgr) s))) = [].
Proof.
  intros R E U.
  destruct (apply_edge_then_undo edge_bgr s l t r edges R E U) as [v ->].
  match goal with
  | |- context [exec redo ?st] =>
      destruct (redo_step st [] r eq_refl) as [w W]; unfold exec; rewrite W
  end.
  cbn. rewrite U. repeat split; reflexivity.
Qed.

Lemma redo_does_not_bring_filter_back_witness :
  resized_image (exec redo (exec undo (exec (apply_edge edge_threshold)
                                         (sample_run loaded_and_cropped))))
  = Some (crop sample_image 1 2 1 3) /\
  undo_stack (exec redo (exec undo (exec (apply_edge edge_threshold)
                                      (sample_run loaded_and_cropped))))
  = undo_stack (sample_run loaded_and_cropped) ++ [crop sample_image 1 2 1 3] /\
  redo_stack (exec redo (exec undo (exec (apply_edge edge_threshold)
                                      (sample_run loaded_and_cropped))))
  = [].
Proof.
  apply (redo_does_not_bring_filter_back edge_threshold
           (sample_run loaded_and_cropped)
           [sample_image] (crop sample_image 1 2 1 3)
           (crop sample_image 1 2 1 3)
           (mk_ndarray 2 [[(255, 255, 255); (255, 255, 255)]]));
    vm_compute; reflexivity.
Defined.

(** X7: two filters followed by one [undo]: the working image is the image
    before the first filter; the result of the first filter is skipped. *)
Theorem undo_after_two_filters
  (edge_bgr : ndarray -> option ndarray)
  (s : state) (r e1 e2 : ndarray) :
  resized_image s = Some r ->
  edge_bgr r = Some e1 ->
  edge_bgr e1 = Some e2 ->
  resized_image (exec (apply_edge edge_bgr) (exec (apply_edge edge_bgr) s))
  = Some e2 /\
  resized_image
    (exec undo (exec (apply_edge edge_bgr) (exec (apply_edge edge_bgr) s)))
  = Some r /\
  redo_stack
    (exec undo (exec (apply_edge edge_bgr) (exec (apply_edge edge_bgr) s)))
  = [e1].
Proof.
  intros R E1 E2.
  destruct (apply_edge_returns edge_bgr s r e1 R E1) as [v A].
  assert (S1 : exec (apply_edge edge_bgr) s
               = set_tk_crop v
                   (set_resized_image (Some e1)
                      (set_redo_stack []
                         (set_undo_stack (undo_stack s ++ [r]) s))))
    by (unfold exec; rewrite A; reflexivity).
  rewrite S1. clear A S1.
  match goal with
  | |- context [exec (apply_edge edge_bgr) ?st] =>
      destruct (apply_edge_returns edge_bgr st e1 e2 eq_refl E2) as [v' A'];
      assert (S2 : exec (apply_edge edge_bgr) st
                   = set_tk_crop v'
                       (set_resized_image (Some e2)
                          (set_redo_stack []
                             (set_undo_stack (undo_stack st ++ [e1]) st))))
        by (unfold exec; rewrite A'; reflexivity);
      rewrite S2; clear A' S2
  end.
  split; [reflexivity|].
  match goal with
  | |- context [exec undo ?st] =>
      destruct (undo_step st (undo_stack s) r e1) as [w W];
      [cbn; rewrite <- app_assoc; reflexivity|];
      unfold exec; rewrite W
  end.
  cbn. split; reflexivity.
Qed.

Lemma undo_after_two_filters_witness :
  resized_image
    (exec undo (exec (apply_edge edge_threshold)
                  (exec (apply_edge edge_threshold)
                     (sample_run loaded_and_cropped))))
  = Some (crop sample_image 1 2 1 3).
Proof.
  apply (undo_after_two_filters edge_threshold (sample_run loaded_and_cropped)
           (crop sample_image 1 2 1 3)
           (mk_ndarray 2 [[(255, 255, 255); (255, 255, 255)]])
           (mk_ndarray 2 [[(255, 255, 255); (255, 255, 255)]]));
    vm_compute; reflexivity.
Defined.

(** ** Every callback, case by case *)

(** What the preview does to the state. *)
Lemma display_cropped_image_some (a : ndarray) (s : state) :
  display_cropped_image (Some a) s
  = (Val tt, if size a =? 0 then s else set_tk_crop (Some a) s).
Proof.
  unfold display_cropped_image. destruct (size a =? 0); reflexivity.
Qed.

Section Cases.

Variable imread : string -> option ndarray.
Variable cv2_resize : ndarray -> Z -> Z -> option ndarray.
Variable edge_bgr : ndarray -> option ndarray.
Variable imwrite : string -> ndarray -> option bool.

(** The state the preview leaves after image [a] became the working image
    of [s]. *)
Lemma exec_display (a : ndarray) (s : state) :
  exec (display_cropped_image (Some a)) s
  = if size a =? 0 then s else set_tk_crop (Some a) s.
Proof. unfold exec. rewrite display_cropped_image_some. reflexivity. Qed.

Lemma load_image_cases (path : string) (s : state) :
  exec (load_image imread path) s = s \/
  (path <> ""%string /\ imread path = None /\
   load_image imread path s = (Exc AttributeError, set_original_image None s)) \/
  exists img,
    path <> ""%string /\ imread path = Some img /\
    exec (load_image imread path) s
    = set_display_image (Some img)
        (set_redo_stack []
           (set_undo_stack (undo_stack s ++ [img])
              (set_original_image (Some img) s))).
Proof.
  destruct (String.eqb path "") eqn:E.
  - left. unfold exec, load_image. rewrite E. reflexivity.
  - assert (P : path <> ""%string) by (intros ->; discriminate).
    destruct (imread path) as [img|] eqn:I.
    + right; right. exists img. split; [exact P|]. split; [reflexivity|].
      unfold exec. rewrite (load_image_decoded imread s path img P I).
      reflexivity.
    + right; left. split; [exact P|]. split; [reflexivity|].
      unfold load_image. rewrite E. unfold bind, modify, get.
      cbn [set_original_image original_image]. rewrite I. reflexivity.
Qed.

Lemma finish_crop_cases (x y cw ch : Z) (s : state) :
  (exists e, finish_crop x y cw ch s = (Exc e, set_end x y s)) \/
  exists d b,
    display_image s = Some d /\
    crop_box (start_x s) (start_y s) x y (shape1 d) (shape0 d) cw ch = Val b /\
    finish_crop x y cw ch s
    = (Val tt,
       exec (display_cropped_image
               (Some (crop d (img_y1 b) (img_y2 b) (img_x1 b) (img_x2 b))))
         (set_redo_stack []
            (set_undo_stack
               (undo_stack s
                ++ [crop d (img_y1 b) (img_y2 b) (img_x1 b) (img_x2 b)])
               (set_resized_image
                  (Some (crop d (img_y1 b) (img_y2 b) (img_x1 b) (img_x2 b)))
                  (set_cropped_image
                     (Some (crop d (img_y1 b) (img_y2 b) (img_x1 b) (img_x2 b)))
                     (set_end x y s)))))).
Proof.
  destruct (display_image s) as [d|] eqn:D.
  - destruct (crop_box (start_x s) (start_y s) x y (shape1 d) (shape0 d) cw ch)
      as [b|e] eqn:B.
    + right. exists d, b. split; [reflexivity|]. split; [exact B|].
      unfold finish_crop, bind, modify, get.
      cbn [set_end display_image start_x start_y end_x end_y].
      rewrite D. cbn [or_raise ret lift]. rewrite B.
      rewrite push_undo_eq. cbn [copy].
      rewrite display_cropped_image_some, exec_display.
      destruct s; reflexivity.
    + left. exists e. apply (finish_crop_raises s x y cw ch d e D B).
  - left. exists AttributeError. apply finish_crop_no_image, D.
Qed.

Lemma resize_image_cases (value : Z) (s : state) :
  (exists r, resize_image cv2_resize value s = (r, s)) \/
  exists c resized width height,
    cropped_image s = Some c /\
    cv2_resize c width height = Some resized /\
    resize_image cv2_resize value s
    = (Val tt,
       exec (display_cropped_image (Some resized))
         (set_resized_image (Some resized) s)).
Proof.
  unfold resize_image, bind, get, lift.
  destruct (cropped_image s) as [c|] eqn:C; [|left; eexists; reflexivity].
  destruct (res_bind (PyFloat.truediv (shape1 c * value) 100) PyFloat.to_int)
    as [width|]; [|left; eexists; reflexivity].
  destruct (res_bind (PyFloat.truediv (shape0 c * value) 100) PyFloat.to_int)
    as [height|]; [|left; eexists; reflexivity].
  destruct (cv2_resize c width height) as [r|] eqn:R;
    [|left; eexists; reflexivity].
  right. exists c, r, width, height. split; [reflexivity|]. split; [exact R|].
  cbn [or_raise ret modify].
  rewrite display_cropped_image_some, exec_display. reflexivity.
Qed.

Lemma apply_edge_cases (s : state) :
  (exists r, apply_edge edge_bgr s = (r, s)) \/
  exists r edges,
    resized_image s = Some r /\
    edge_bgr r = Some edges /\
    apply_edge edge_bgr s
    = (Val tt,
       exec (display_cropped_image (Some edges))
         (set_resized_image (Some edges)
            (set_redo_stack [] (set_undo_stack (undo_stack s ++ [r]) s)))).
Proof.
  unfold apply_edge, bind, get.
  destruct (resized_image s) as [r|] eqn:R; [|left; eexists; reflexivity].
  destruct (edge_bgr r) as [edges|] eqn:E; [|left; eexists; reflexivity].
  right. exists r, edges. split; [reflexivity|]. split; [exact E|].
  cbn [or_raise ret]. rewrite push_undo_eq. cbn [copy modify].
  rewrite display_cropped_image_some, exec_display. destruct s; reflexivity.
Qed.

Lemma undo_cases (s : state) :
  undo s = (Val tt, s) \/
  exists l below top,
    undo_stack s = l ++ [below; top] /\
    undo s
    = (Val tt,
       exec (display_cropped_image (Some below))
         (set_resized_image (Some below)
            (set_redo_stack (redo_stack s ++ [top])
               (set_undo_stack (l ++ [below]) s)))).
Proof.
  destruct (Nat.le_gt_cases (length (undo_stack s)) 1) as [L|L].
  - left. apply undo_short, L.
  - right. destruct (two_or_more _ L) as (l & below & top & U).
    exists l, below, top. split; [exact U|].
    unfold undo, bind, get.
    assert (G : (1 <? Z.of_nat (length (undo_stack s))) = true)
      by (apply Z.ltb_lt; lia).
    rewrite G.
    replace (l ++ [below; top]) with ((l ++ [below]) ++ [top]) in U
      by (rewrite <- app_assoc; reflexivity).
    rewrite U, py_pop_snoc. cbn [or_raise ret modify fst snd].
    cbn [set_undo_stack set_redo_stack undo_stack redo_stack].
    rewrite py_last_snoc. cbn [or_raise ret modify copy].
    rewrite display_cropped_image_some, exec_display. destruct s; reflexivity.
Qed.

Lemma redo_cases (s : state) :
  redo s = (Val tt, s) \/
  exists l x,
    redo_stack s = l ++ [x] /\
    redo s
    = (Val tt,
       exec (display_cropped_image (Some x))
         (set_undo_stack (undo_stack s ++ [x])
            (set_resized_image (Some x) (set_redo_stack l s)))).
Proof.
  destruct (snoc_cases (redo_stack s)) as [R|(l & x & R)].
  - left. apply redo_empty, R.
  - right. exists l, x. split; [exact R|].
    unfold redo, bind, get. rewrite R.
    destruct (l ++ [x]) eqn:E; [destruct l; discriminate|]. rewrite <- E.
    rewrite py_pop_snoc. cbn [or_raise ret modify fst snd copy].
    rewrite display_cropped_image_some, exec_display. destruct s; reflexivity.
Qed.

Lemma save_image_state (path : string) (s : state) :
  exec (bind (save_image imwrite path) (fun _ => ret tt)) s = s.
Proof.
  unfold exec, save_image, bind, get.
  destruct (resized_image s) as [a|]; [|reflexivity].
  destruct (String.eqb path ""); [reflexivity|].
  destruct (imwrite path a) as [[|]|]; reflexivity.
Qed.

End Cases.

(** The preview touches nothing but its own buffer. *)
Lemma display_cropped_image_fields (img : option ndarray) (s : state) :
  let s' := exec (display_cropped_image img) s in
  original_image s' = original_image s /\
  cropped_image s' = cropped_image s /\
  resized_image s' = resized_image s /\
  display_image s' = display_image s /\
  start_x s' = start_x s /\ start_y s' = start_y s /\
  undo_stack s' = undo_stack s /\
  redo_stack s' = redo_stack s.
Proof.
  destruct img as [a|]; [|cbn; tauto].
  cbn zeta. rewrite exec_display. destruct (size a =? 0); cbn; tauto.
Qed.

Lemma display_cropped_image_buffer (a : ndarray) (s : state) :
  size a <> 0 -> tk_crop (exec (display_cropped_image (Some a)) s) = Some a.
Proof.
  intros N. rewrite exec_display. apply Z.eqb_neq in N. rewrite N.
  reflexivity.
Qed.

Section Steps.

Variable imread : string -> option ndarray.
Variable cv2_resize : ndarray -> Z -> Z -> option ndarray.
Variable edge_bgr : ndarray -> option ndarray.
Variable imwrite : string -> ndarray -> option bool.

(** Every way one event can change the state.  A relation between an
    event, the state before it and the state after it holds for all events
    once it holds for these ten shapes. *)
Lemma handle_cases (P : event -> state -> state -> Prop) :
  (forall ev s, P ev s s) ->
  (forall s x y, P (StartCrop x y) s (set_start x y s)) ->
  (forall s x y cw ch, P (FinishCrop x y cw ch) s (set_end x y s)) ->
  (forall s path,
      path <> ""%string -> imread path = None ->
      P (Load path) s (set_original_image None s)) ->
  (forall s path img,
      path <> ""%string -> imread path = Some img ->
      P (Load path) s
        (set_display_image (Some img)
           (set_redo_stack []
              (set_undo_stack (undo_stack s ++ [img])
                 (set_original_image (Some img) s))))) ->
  (forall s x y cw ch d c,
      display_image s = Some d ->
      P (FinishCrop x y cw ch) s
        (exec (display_cropped_image (Some c))
           (set_redo_stack []
              (set_undo_stack (undo_stack s ++ [c])
                 (set_resized_image (Some c)
                    (set_cropped_image (Some c) (set_end x y s))))))) ->
  (forall s value c resized,
      cropped_image s = Some c ->
      P (Resize value) s
        (exec (display_cropped_image (Some resized))
           (set_resized_image (Some resized) s))) ->
  (forall s r edges,
      resized_image s = Some r ->
      P Edge s
        (exec (display_cropped_image (Some edges))
           (set_resized_image (Some edges)
              (set_redo_stack []
                 (set_undo_stack (undo_stack s ++ [r]) s))))) ->
  (forall s l below top,
      undo_stack s = l ++ [below; top] ->
      P Undo s
        (exec (display_cropped_image (Some below))
           (set_resized_image (Some below)
              (set_redo_stack (redo_stack s ++ [top])
                 (set_undo_stack (l ++ [below]) s))))) ->
  (forall s l x,
      redo_stack s = l ++ [x] ->
      P Redo s
        (exec (display_cropped_image (Some x))
           (set_undo_stack (undo_stack s ++ [x])
              (set_resized_image (Some x) (set_redo_stack l s))))) ->
  forall ev s, P ev s (exec (handle imread cv2_resize edge_bgr imwrite ev) s).
Proof.
  intros Same Start End Failed Loaded Cropped Resized Filtered Undone Redone
    ev s.
  destruct ev as [path|x y|x y|x y cw ch|value|path| | |]; cbn [handle].
  - destruct (load_image_cases imread path s)
      as [E|[(N & I & E)|(img & N & I & E)]].
    + rewrite E. apply Same.
    + unfold exec. rewrite E. apply Failed; assumption.
    + rewrite E. apply Loaded; assumption.
  - apply Start.
  - apply Same.
  - destruct (finish_crop_cases x y cw ch s) as [[e E]|(d & b & D & _ & E)].
    + unfold exec. rewrite E. apply End.
    + unfold exec at 1. rewrite E. apply (Cropped s x y cw ch d _ D).
  - destruct (resize_image_cases cv2_resize value s)
      as [[r E]|(c & resized & w & h & C & _ & E)].
    + unfold exec. rewrite E. apply Same.
    + unfold exec at 1. rewrite E. apply (Resized s value c resized C).
  - rewrite save_image_state. apply Same.
  - destruct (apply_edge_cases edge_bgr s) as [[r E]|(r & edges & R & _ & E)].
    + unfold exec. rewrite E. apply Same.
    + unfold exec at 1. rewrite E. apply (Filtered s r edges R).
  - destruct (undo_cases s) as [E|(l & below & top & U & E)].
    + unfold exec. rewrite E. apply Same.
    + unfold exec at 1. rewrite E. apply (Undone s l below top U).
  - destruct (redo_cases s) as [E|(l & x & R & E)].
    + unfold exec. rewrite E. apply Same.
    + unfold exec at 1. rewrite E. apply (Redone s l x R).
Qed.

(** A property kept by every event of a kind [Q] holds after every session
    made of such events. *)
Lemma run_invariant (Q : event -> Prop) (P : state -> Prop) :
  (forall ev s,
      Q ev -> P s -> P (exec (handle imread cv2_resize edge_bgr imwrite ev) s)) ->
  forall evs s,
    Forall Q evs -> P s -> P (run imread cv2_resize edge_bgr imwrite evs s).
Proof.
  intros Step evs. unfold run.
  induction evs as [|ev evs IH]; intros s F H; [exact H|].
  inversion F; subst. cbn [fold_left]. apply IH; [assumption|].
  apply Step; assumption.
Qed.

End Steps.

(** ** Sessions: what every sequence of events keeps *)

Lemma undo_stack_display (img : option ndarray) (s : state) :
  undo_stack (exec (display_cropped_image img) s) = undo_stack s.
Proof. apply (display_cropped_image_fields img s). Qed.

Lemma redo_stack_display (img : option ndarray) (s : state) :
  redo_stack (exec (display_cropped_image img) s) = redo_stack s.
Proof. apply (display_cropped_image_fields img s). Qed.

Lemma resized_image_display (img : option ndarray) (s : state) :
  resized_image (exec (display_cropped_image img) s) = resized_image s.
Proof. apply (display_cropped_image_fields img s). Qed.

Lemma cropped_image_display (img : option ndarray) (s : state) :
  cropped_image (exec (display_cropped_image img) s) = cropped_image s.
Proof. apply (display_cropped_image_fields img s). Qed.

Lemma display_image_display (img : option ndarray) (s : state) :
  display_image (exec (display_cropped_image img) s) = display_image s.
Proof. apply (display_cropped_image_fields img s). Qed.

Lemma original_image_display (img : option ndarray) (s : state) :
  original_image (exec (display_cropped_image img) s) = original_image s.
Proof. apply (display_cropped_image_fields img s). Qed.

Lemma decodes_load (imread : string -> option ndarray)
  (path : string) (img : ndarray) :
  path <> ""%string -> imread path = Some img ->
  decodes imread (Load path) = true.
Proof.
  intros P I. cbn [decodes]. rewrite I.
  destruct (String.eqb_spec path ""); [contradiction|reflexivity].
Qed.

(** ** The number of stored snapshots, run by run (C10) *)

(** C10: [undo] and [redo] keep the number of stored snapshots, whether
    they move an entry or do nothing; a call of [push_undo] sets it to one
    more than the size of the undo stack; and only a committed edit changes
    it: every run of every callback either leaves the number as it was, or
    is a run of a committing callback (load, crop commit, filter) that
    returned and left the stacks as [push_undo] leaves them.  So a
    cancelled or failed load, a crop commit that raises and a filter with
    no working image keep the number as well. *)
Theorem undo_redo_preserve_stored
  (imread : string -> option ndarray)
  (cv2_resize : ndarray -> Z -> Z -> option ndarray)
  (edge_bgr : ndarray -> option ndarray)
  (imwrite : string -> ndarray -> option bool) (s : state) :
  stored (exec undo s) = stored s /\
  stored (exec redo s) = stored s /\
  (forall img, stored (exec (push_undo img) s) = S (length (undo_stack s))) /\
  (forall ev,
     let s' := exec (handle imread cv2_resize edge_bgr imwrite ev) s in
     stored s' = stored s \/
     (commits ev = true /\
      outcome (handle imread cv2_resize edge_bgr imwrite ev) s = Val tt /\
      exists img,
        undo_stack s' = undo_stack (exec (push_undo img) s) /\
        redo_stack s' = redo_stack (exec (push_undo img) s))).
Proof.
  split; [apply stored_undo|]. split; [apply stored_redo|]. split.
  - intros img. unfold exec. rewrite push_undo_eq. unfold stored. cbn.
    rewrite length_app. cbn. lia.
  - intros ev. cbn zeta.
    destruct (commits ev) eqn:C.
    + destruct ev as [path|x y|x y|x y cw ch|value|path| | |];
        try discriminate C; cbn [handle].
      * destruct (load_image_cases imread path s)
          as [E|[(_ & _ & E)|(img & P & I & E)]].
        -- left. rewrite E. reflexivity.
        -- left. unfold exec. rewrite E. reflexivity.
        -- right. split; [reflexivity|]. split.
           ++ unfold outcome. rewrite (load_image_decoded imread s path img P I).
              reflexivity.
           ++ exists img. rewrite E. unfold exec. rewrite push_undo_eq.
              split; reflexivity.
      * destruct (finish_crop_cases x y cw ch s)
          as [[e E]|(d & b & D & B & E)].
        -- left. unfold exec. rewrite E. reflexivity.
        -- right. split; [reflexivity|]. split.
           ++ unfold outcome. rewrite E. reflexivity.
           ++ exists (crop d (img_y1 b) (img_y2 b) (img_x1 b) (img_x2 b)).
              unfold exec at 1 3. rewrite E. cbn [snd].
              rewrite undo_stack_display, redo_stack_display.
              unfold exec. rewrite push_undo_eq. split; reflexivity.
      * destruct (apply_edge_cases edge_bgr s)
          as [[r E]|(r & edges & R & G & E)].
        -- left. unfold exec. rewrite E. reflexivity.
        -- right. split; [reflexivity|]. split.
           ++ unfold outcome. rewrite E. reflexivity.
           ++ exists r. unfold exec at 1 3. rewrite E. cbn [snd].
              rewrite undo_stack_display, redo_stack_display.
              unfold exec. rewrite push_undo_eq. split; reflexivity.
    + left.
      destruct ev as [path|x y|x y|x y cw ch|value|path| | |];
        try discriminate C; cbn [handle].
      * reflexivity.
      * reflexivity.
      * apply stored_resize_image.
      * rewrite save_image_state. reflexivity.
      * apply stored_undo.
      * apply stored_redo.
Qed.

Lemma undo_redo_preserve_stored_witness :
  let s := sample_run (loaded_and_cropped ++ [Undo]) in
  (stored (exec (handle sample_imread resize_nearest edge_threshold
                   sample_imwrite (Load "")) s)
   = stored s) /\
  (stored (exec (handle sample_imread resize_nearest edge_threshold
                   sample_imwrite (Load "missing.png")) s)
   = stored s).
Proof.
  pose proof (undo_redo_preserve_stored sample_imread resize_nearest
                edge_threshold sample_imwrite
                (sample_run (loaded_and_cropped ++ [Undo]))) as H.
  destruct H as (_ & _ & _ & H).
  split.
  - destruct (H (Load "")) as [E|(_ & _ & img & U & _)]; [exact E|].
    vm_compute in U. discriminate U.
  - destruct (H (Load "missing.png")) as [E|(_ & O & _)]; [exact E|].
    vm_compute in O. discriminate O.
Defined.

Section BeforeLoad.

Variable imread : string -> option ndarray.
Variable cv2_resize : ndarray -> Z -> Z -> option ndarray.
Variable edge_bgr : ndarray -> option ndarray.
Variable imwrite : string -> ndarray -> option bool.

(** X8: until a load has decoded a file the session holds no image: whatever
    the events, the undo and redo stacks are empty and there is no
    displayed, cropped, working or preview image.  So every mouse release
    raises AttributeError, and saving writes nothing. *)
Theorem nothing_before_first_decoded_load
  (evs : list event) (x y cw ch : Z) (path : string) :
  Forall (fun ev => decodes imread ev = false) evs ->
  let s := run imread cv2_resize edge_bgr imwrite evs init in
  (original_image s = None /\ display_image s = None /\
   cropped_image s = None /\ resized_image s = None /\
   tk_crop s = None /\ undo_stack s = [] /\ redo_stack s = []) /\
  outcome (finish_crop x y cw ch) s = Exc AttributeError /\
  outcome (save_image imwrite path) s = Val None.
Proof.
  intros F s.
  assert (I : original_image s = None /\ display_image s = None /\
              cropped_image s = None /\ resized_image s = None /\
              tk_crop s = None /\ undo_stack s = [] /\ redo_stack s = []).
  { subst s.
    apply (run_invariant imread cv2_resize edge_bgr imwrite
             (fun ev => decodes imread ev = false)
             (fun s => original_image s = None /\ display_image s = None /\
                       cropped_image s = None /\ resized_image s = None /\
                       tk_crop s = None /\ undo_stack s = [] /\
                       redo_stack s = []));
      [|exact F|cbn; tauto].
    intros ev s0.
    apply (handle_cases imread cv2_resize edge_bgr imwrite
             (fun ev s s' =>
                decodes imread ev = false ->
                (original_image s = None /\ display_image s = None /\
                 cropped_image s = None /\ resized_image s = None /\
                 tk_crop s = None /\ undo_stack s = [] /\ redo_stack s = []) ->
                original_image s' = None /\ display_image s' = None /\
                cropped_image s' = None /\ resized_image s' = None /\
                tk_crop s' = None /\ undo_stack s' = [] /\
                redo_stack s' = [])).
    - tauto.
    - cbn; tauto.
    - cbn; tauto.
    - cbn; tauto.
    - intros s1 p img P I D. rewrite (decodes_load imread p img P I) in D.
      discriminate.
    - intros s1 ? ? ? ? d c D _ H. destruct H as (_ & H & _). congruence.
    - intros s1 ? c r C _ H. destruct H as (_ & _ & H & _). congruence.
    - intros s1 r e R _ H. destruct H as (_ & _ & _ & H & _). congruence.
    - intros s1 l b t U _ H. destruct H as (_ & _ & _ & _ & _ & H & _).
      rewrite H in U. destruct l; discriminate.
    - intros s1 l b R _ H. destruct H as (_ & _ & _ & _ & _ & _ & H).
      rewrite H in R. destruct l; discriminate. }
  split; [exact I|]. destruct I as (_ & D & _ & R & _). split.
  - unfold outcome. rewrite (finish_crop_no_image _ _ _ _ _ D). reflexivity.
  - unfold outcome, save_image, bind, get. rewrite R. reflexivity.
Qed.

End BeforeLoad.

Lemma nothing_before_first_decoded_load_witness :
  Forall (fun ev => decodes sample_imread ev = false)
    [Load ""; Load "missing.png"; StartCrop 0 0; Edge; Undo] /\
  let s := run sample_imread resize_nearest edge_threshold sample_imwrite
             [Load ""; Load "missing.png"; StartCrop 0 0; Edge; Undo] init in
  (original_image s = None /\ display_image s = None /\
   cropped_image s = None /\ resized_image s = None /\
   tk_crop s = None /\ undo_stack s = [] /\ redo_stack s = []) /\
  outcome (finish_crop 1 1 4 3) s = Exc AttributeError /\
  outcome (save_image sample_imwrite "out.png"%string) s = Val None.
Proof.
  assert (F : Forall (fun ev => decodes sample_imread ev = false)
                [Load ""; Load "missing.png"; StartCrop 0 0; Edge; Undo])
    by (repeat constructor).
  split; [exact F|].
  exact (nothing_before_first_decoded_load sample_imread resize_nearest
           edge_threshold sample_imwrite _ 1 1 4 3 "out.png"%string F).
Defined.

(** ** What a session keeps from start-up on *)

Lemma hd_error_snoc {A : Type} (l : list A) (x b : A) :
  hd_error l = Some b -> hd_error (l ++ [x]) = Some b.
Proof. destruct l; [discriminate|exact (fun H => H)]. Qed.

Section Invariants.

Variable imread : string -> option ndarray.
Variable cv2_resize : ndarray -> Z -> Z -> option ndarray.
Variable edge_bgr : ndarray -> option ndarray.
Variable imwrite : string -> ndarray -> option bool.

(** X9: loading alone gives nothing to work on.  In a session from start-up
    without a mouse release and without an undo there is no working image
    and no cropped image, whatever was loaded: saving writes nothing, and
    the edge filter and the resize slider leave the state as it is. *)
Theorem no_working_image_without_crop_or_undo
  (evs : list event) (path : string) (value : Z) :
  Forall (fun ev => crops ev = false /\ ev <> Undo) evs ->
  let s := run imread cv2_resize edge_bgr imwrite evs init in
  resized_image s = None /\ cropped_image s = None /\
  outcome (save_image imwrite path) s = Val None /\
  apply_edge edge_bgr s = (Val tt, s) /\
  resize_image cv2_resize value s = (Val tt, s).
Proof.
  intros F s.
  assert (I : resized_image s = None /\ cropped_image s = None /\
              redo_stack s = []).
  { subst s.
    apply (run_invariant imread cv2_resize edge_bgr imwrite
             (fun ev => crops ev = false /\ ev <> Undo)
             (fun s => resized_image s = None /\ cropped_image s = None /\
                       redo_stack s = []));
      [|exact F|cbn; tauto].
    intros ev s0.
    apply (handle_cases imread cv2_resize edge_bgr imwrite
             (fun ev s s' =>
                crops ev = false /\ ev <> Undo ->
                resized_image s = None /\ cropped_image s = None /\
                redo_stack s = [] ->
                resized_image s' = None /\ cropped_image s' = None /\
                redo_stack s' = [])).
    - tauto.
    - cbn; tauto.
    - intros ? ? ? ? ? [C _]; discriminate.
    - cbn; tauto.
    - cbn; tauto.
    - intros ? ? ? ? ? ? ? ? [C _]; discriminate.
    - intros s1 ? c r C _ H. destruct H as (_ & H & _). congruence.
    - intros s1 r e R _ H. destruct H as (H & _). congruence.
    - intros ? ? ? ? ? [_ C]. contradiction C. reflexivity.
    - intros s1 l b R _ H. destruct H as (_ & _ & H).
      rewrite H in R. destruct l; discriminate. }
  destruct I as (R & C & _).
  split; [exact R|]. split; [exact C|]. split; [|split].
  - unfold outcome, save_image, bind, get. rewrite R. reflexivity.
  - unfold apply_edge, bind, get. rewrite R. reflexivity.
  - unfold resize_image, bind, get. rewrite C. reflexivity.
Qed.

(** X10: the preview label shows the working image.  After any session from
    start-up, a working image that is not empty is the buffer the preview
    was last drawn from. *)
Theorem preview_shows_working_image (evs : list event) (a : ndarray) :
  resized_image (run imread cv2_resize edge_bgr imwrite evs init) = Some a ->
  size a <> 0 ->
  tk_crop (run imread cv2_resize edge_bgr imwrite evs init) = Some a.
Proof.
  revert a.
  apply (run_invariant imread cv2_resize edge_bgr imwrite (fun _ => True)
           (fun s => forall a, resized_image s = Some a -> size a <> 0 ->
                               tk_crop s = Some a)).
  - intros ev s _. revert ev s.
    apply (handle_cases imread cv2_resize edge_bgr imwrite
             (fun _ s s' =>
                (forall a, resized_image s = Some a -> size a <> 0 ->
                           tk_crop s = Some a) ->
                forall a, resized_image s' = Some a -> size a <> 0 ->
                          tk_crop s' = Some a));
      try (cbn; intros; auto; fail);
      intros; match goal with
              | H : resized_image _ = Some _ |- _ =>
                  rewrite resized_image_display in H; cbn in H;
                  injection H as <-
              end; apply display_cropped_image_buffer; assumption.
  - apply Forall_forall. trivial.
  - discriminate.
Qed.

(** X11: the canvas shows the picture that was loaded.  After any session
    from start-up, when [original_image] holds a picture the canvas shows
    that same picture. *)
Theorem canvas_shows_original (evs : list event) (o : ndarray) :
  original_image (run imread cv2_resize edge_bgr imwrite evs init) = Some o ->
  display_image (run imread cv2_resize edge_bgr imwrite evs init) = Some o.
Proof.
  revert o.
  apply (run_invariant imread cv2_resize edge_bgr imwrite (fun _ => True)
           (fun s => forall o, original_image s = Some o ->
                               display_image s = Some o)).
  - intros ev s _. revert ev s.
    apply (handle_cases imread cv2_resize edge_bgr imwrite
             (fun _ s s' =>
                (forall o, original_image s = Some o ->
                           display_image s = Some o) ->
                forall o, original_image s' = Some o ->
                          display_image s' = Some o));
      try (cbn; intros; auto; fail);
      try (cbn; intros; discriminate);
      intros;
      match goal with
      | H : original_image (exec _ _) = _ |- _ =>
          rewrite original_image_display in H; cbn in H
      end;
      rewrite display_image_display; cbn; auto.
  - apply Forall_forall. trivial.
  - discriminate.
Qed.

(** X12: a load that fails.  When the dialog gives a path that [cv2.imread]
    cannot decode, [load_image] raises AttributeError after it has cleared
    [original_image]; the canvas picture, the cropped and the working
    image, the preview and both stacks stay as they were. *)
Theorem load_image_failed (path : string) (s : state) :
  path <> ""%string ->
  imread path = None ->
  load_image imread path s = (Exc AttributeError, set_original_image None s).
Proof.
  intros P I.
  unfold load_image. destruct (String.eqb_spec path ""); [contradiction|].
  unfold bind, modify, get.
  cbn [set_original_image original_image]. rewrite I. reflexivity.
Qed.

(** X13: the oldest snapshot stays.  Once the undo stack holds an entry,
    its bottom entry is the same after every further session: no event
    removes or replaces it. *)
Theorem bottom_of_undo_stack_is_kept
  (evs : list event) (s : state) (b : ndarray) :
  hd_error (undo_stack s) = Some b ->
  hd_error (undo_stack (run imread cv2_resize edge_bgr imwrite evs s)) = Some b.
Proof.
  apply (run_invariant imread cv2_resize edge_bgr imwrite (fun _ => True)
           (fun s => hd_error (undo_stack s) = Some b)).
  - intros ev s0 _. revert ev s0.
    apply (handle_cases imread cv2_resize edge_bgr imwrite
             (fun _ s s' =>
                hd_error (undo_stack s) = Some b ->
                hd_error (undo_stack s') = Some b));
      try (cbn; intros; auto; fail);
      intros; rewrite ?undo_stack_display; cbn;
      try assumption; try (apply hd_error_snoc; assumption).
    match goal with
    | U : undo_stack _ = _, H : hd_error _ = _ |- _ => rewrite U in H
    end.
    rewrite (hd_error_app_cons l [] below top). assumption.
  - apply Forall_forall. trivial.
Qed.

(** X14: the stacks grow by at most one snapshot per committed edit.  After
    a session the two stacks together hold at most as many snapshots more
    than before as the session has load, crop and filter events. *)
Theorem stored_bounded_by_commits (evs : list event) (s : state) :
  (stored (run imread cv2_resize edge_bgr imwrite evs s)
   <= stored s + length (filter commits evs))%nat.
Proof.
  revert s. unfold run.
  induction evs as [|ev evs IH]; intros s; cbn [fold_left filter]; [lia|].
  specialize (IH (exec (handle imread cv2_resize edge_bgr imwrite ev) s)).
  assert (S1 : (stored (exec (handle imread cv2_resize edge_bgr imwrite ev) s)
                <= stored s + if commits ev then 1 else 0)%nat).
  { clear. revert ev s.
    apply (handle_cases imread cv2_resize edge_bgr imwrite
             (fun ev s s' =>
                (stored s' <= stored s + if commits ev then 1 else 0)%nat));
      unfold stored; intros;
      rewrite ?undo_stack_display, ?redo_stack_display; cbn;
      rewrite ?length_app; cbn; try lia.
    - match goal with U : undo_stack _ = _ |- _ => rewrite U end.
      rewrite !length_app. cbn. lia.
    - match goal with U : redo_stack _ = _ |- _ => rewrite U end.
      rewrite !length_app. cbn. lia. }
  destruct (commits ev); cbn [length]; lia.
Qed.

End Invariants.

Lemma no_working_image_without_crop_or_undo_witness :
  let s := run sample_imread resize_nearest edge_threshold sample_imwrite
             [Load "a.png"; Load "b.png"; Edge; Resize 50; Redo] init in
  resized_image s = None /\ cropped_image s = None /\
  outcome (save_image sample_imwrite "out.png"%string) s = Val None /\
  apply_edge edge_threshold s = (Val tt, s) /\
  resize_image resize_nearest 50 s = (Val tt, s).
Proof.
  apply (no_working_image_without_crop_or_undo sample_imread resize_nearest
           edge_threshold sample_imwrite
           [Load "a.png"; Load "b.png"; Edge; Resize 50; Redo]
           "out.png"%string 50).
  repeat (constructor; [split; [reflexivity|discriminate]|]). constructor.
Defined.

Lemma preview_shows_working_image_witness :
  tk_crop (run sample_imread resize_nearest edge_threshold sample_imwrite
             loaded_and_cropped init)
  = Some (mk_ndarray 2 [[(1, 1, 0); (2, 1, 0)]]).
Proof.
  apply (preview_shows_working_image sample_imread resize_nearest
           edge_threshold sample_imwrite loaded_and_cropped
           (mk_ndarray 2 [[(1, 1, 0); (2, 1, 0)]])).
  - vm_compute. reflexivity.
  - vm_compute. discriminate.
Defined.

Lemma canvas_shows_original_witness :
  display_image (run sample_imread resize_nearest edge_threshold sample_imwrite
                   [Load "a.png"; StartCrop 1 1; FinishCrop 3 2 4 3; Edge] init)
  = Some sample_image.
Proof.
  apply (canvas_shows_original sample_imread resize_nearest edge_threshold sample_imwrite
           [Load "a.png"; StartCrop 1 1; FinishCrop 3 2 4 3; Edge]
           sample_image).
  vm_compute. reflexivity.
Defined.

Lemma load_image_failed_witness :
  load_image sample_imread "missing.png" (sample_run loaded_and_cropped)
  = (Exc AttributeError,
     set_original_image None (sample_run loaded_and_cropped)).
Proof.
  apply (load_image_failed sample_imread "missing.png"
           (sample_run loaded_and_cropped)).
  - discriminate.
  - reflexivity.
Defined.

Lemma bottom_of_undo_stack_is_kept_witness :
  hd_error
    (undo_stack
       (run sample_imread resize_nearest edge_threshold sample_imwrite
          [StartCrop 1 1; FinishCrop 3 2 4 3; Edge; Undo; Undo; Undo;
           Load "b.png"]
          (sample_run [Load "a.png"])))
  = Some sample_image.
Proof.
  apply (bottom_of_undo_stack_is_kept sample_imread resize_nearest
           edge_threshold sample_imwrite
           [StartCrop 1 1; FinishCrop 3 2 4 3; Edge; Undo; Undo; Undo;
            Load "b.png"]
           (sample_run [Load "a.png"]) sample_image).
  vm_compute. reflexivity.
Defined.

(** ** What the slider and the drag read *)

(** [resize_image] reads nothing but the cropped image. *)
Lemma resize_image_same_crop
  (cv2_resize : ndarray -> Z -> Z -> option ndarray)
  (value : Z) (s1 s2 : state) (c : ndarray) :
  cropped_image s1 = Some c -> cropped_image s2 = Some c ->
  outcome (resize_image cv2_resize value) s1
  = outcome (resize_image cv2_resize value) s2 /\
  (outcome (resize_image cv2_resize value) s2 = Val tt ->
   resized_image (exec (resize_image cv2_resize value) s1)
   = resized_image (exec (resize_image cv2_resize value) s2)).
Proof.
  intros C1 C2. unfold outcome, exec, resize_image, bind, get, lift.
  rewrite C1, C2.
  destruct (res_bind (PyFloat.truediv (shape1 c * value) 100) PyFloat.to_int)
    as [width|]; [|split; [reflexivity|discriminate]].
  destruct (res_bind (PyFloat.truediv (shape0 c * value) 100) PyFloat.to_int)
    as [height|]; [|split; [reflexivity|discriminate]].
  destruct (cv2_resize c width height) as [r|];
    [|split; [reflexivity|discriminate]].
  cbn [or_raise ret modify]. rewrite !display_cropped_image_some.
  split; [reflexivity|]. intros _. cbn [snd].
  destruct (size r =? 0); reflexivity.
Qed.

(** [finish_crop] reads nothing but the canvas picture and the press
    point. *)
Lemma finish_crop_same_display (x y cw ch : Z) (s1 s2 : state) :
  display_image s1 = display_image s2 ->
  start_x s1 = start_x s2 -> start_y s1 = start_y s2 ->
  outcome (finish_crop x y cw ch) s1 = outcome (finish_crop x y cw ch) s2 /\
  (outcome (finish_crop x y cw ch) s2 = Val tt ->
   cropped_image (exec (finish_crop x y cw ch) s1)
   = cropped_image (exec (finish_crop x y cw ch) s2)).
Proof.
  intros D X Y. unfold outcome, exec.
  destruct (display_image s2) as [d|] eqn:D2.
  - destruct (crop_box (start_x s2) (start_y s2) x y (shape1 d) (shape0 d)
                cw ch) as [b|e] eqn:B.
    + destruct (finish_crop_returns s2 x y cw ch d b D2 B) as [v2 E2].
      rewrite <- X, <- Y in B.
      destruct (finish_crop_returns s1 x y cw ch d b D B) as [v1 E1].
      rewrite E1, E2. split; reflexivity.
    + rewrite (finish_crop_raises s2 x y cw ch d e D2 B).
      rewrite <- X, <- Y in B.
      rewrite (finish_crop_raises s1 x y cw ch d e D B).
      split; [reflexivity|discriminate].
  - rewrite (finish_crop_no_image _ _ _ _ _ D), (finish_crop_no_image _ _ _ _ _ D2).
    split; [reflexivity|discriminate].
Qed.

Section Dependence.

Variable imread : string -> option ndarray.
Variable cv2_resize : ndarray -> Z -> Z -> option ndarray.
Variable edge_bgr : ndarray -> option ndarray.
Variable imwrite : string -> ndarray -> option bool.

(** Only a mouse release writes the cropped image. *)
Lemma cropped_image_run (evs : list event) (s : state) :
  Forall (fun ev => crops ev = false) evs ->
  cropped_image (run imread cv2_resize edge_bgr imwrite evs s) = cropped_image s.
Proof.
  intros F.
  apply (run_invariant imread cv2_resize edge_bgr imwrite
           (fun ev => crops ev = false)
           (fun s' => cropped_image s' = cropped_image s));
    [|exact F|reflexivity].
  intros ev s0.
  apply (handle_cases imread cv2_resize edge_bgr imwrite
           (fun ev s1 s' =>
              crops ev = false ->
              cropped_image s1 = cropped_image s ->
              cropped_image s' = cropped_image s));
    try (cbn; intros; auto; fail); try (cbn; intros; discriminate);
    intros; rewrite cropped_image_display; cbn; assumption.
Qed.

(** Only a load that decodes writes the canvas picture. *)
Lemma display_image_run (evs : list event) (s : state) :
  Forall (fun ev => decodes imread ev = false) evs ->
  display_image (run imread cv2_resize edge_bgr imwrite evs s) = display_image s.
Proof.
  intros F.
  apply (run_invariant imread cv2_resize edge_bgr imwrite
           (fun ev => decodes imread ev = false)
           (fun s' => display_image s' = display_image s));
    [|exact F|reflexivity].
  intros ev s0.
  apply (handle_cases imread cv2_resize edge_bgr imwrite
           (fun ev s1 s' =>
              decodes imread ev = false ->
              display_image s1 = display_image s ->
              display_image s' = display_image s));
    try (cbn; intros; auto; fail).
  - intros s1 p img P I D. rewrite (decodes_load imread p img P I) in D.
    discriminate.
  - intros; rewrite display_image_display; cbn; assumption.
  - intros; rewrite display_image_display; cbn; assumption.
  - intros; rewrite display_image_display; cbn; assumption.
  - intros; rewrite display_image_display; cbn; assumption.
  - intros; rewrite display_image_display; cbn; assumption.
Qed.

(** X15: the slider always scales the last crop.  Whatever happened since
    the crop was taken (filters, earlier slider moves, undo, redo, loads),
    as long as no mouse release came in between, a slider move ends the
    same way and, when it returns, gives the same working image as the
    same move made right after the crop. *)
Theorem resize_depends_on_crop_only
  (evs : list event) (s : state) (c : ndarray) (value : Z) :
  Forall (fun ev => crops ev = false) evs ->
  cropped_image s = Some c ->
  let s' := run imread cv2_resize edge_bgr imwrite evs s in
  outcome (resize_image cv2_resize value) s'
  = outcome (resize_image cv2_resize value) s /\
  (outcome (resize_image cv2_resize value) s = Val tt ->
   resized_image (exec (resize_image cv2_resize value) s')
   = resized_image (exec (resize_image cv2_resize value) s)).
Proof.
  intros F C s'. apply (resize_image_same_crop cv2_resize value s' s c).
  - subst s'. rewrite (cropped_image_run evs s F). exact C.
  - exact C.
Qed.

(** X16: a crop is always cut from the canvas picture.  Whatever happened
    since the picture was loaded (crops, filters, slider moves, undo, redo,
    cancelled or failed loads), the same drag ends the same way and, when
    it returns, cuts the same cropped image as on the state before. *)
Theorem crop_depends_on_canvas_picture_only
  (evs : list event) (s : state) (a b x y cw ch : Z) :
  Forall (fun ev => decodes imread ev = false) evs ->
  let s' := run imread cv2_resize edge_bgr imwrite evs s in
  outcome (finish_crop x y cw ch) (exec (start_crop a b) s')
  = outcome (finish_crop x y cw ch) (exec (start_crop a b) s) /\
  (outcome (finish_crop x y cw ch) (exec (start_crop a b) s) = Val tt ->
   cropped_image (exec (finish_crop x y cw ch) (exec (start_crop a b) s'))
   = cropped_image (exec (finish_crop x y cw ch) (exec (start_crop a b) s))).
Proof.
  intros F s'. apply finish_crop_same_display; [|reflexivity|reflexivity].
  subst s'. cbn. apply (display_image_run evs s F).
Qed.

End Dependence.

Lemma resize_depends_on_crop_only_witness :
  let s' := run sample_imread resize_nearest edge_threshold sample_imwrite
              [Edge; Resize 200; Undo; Load "b.png"]
              (sample_run loaded_and_cropped) in
  outcome (resize_image resize_nearest 50) s'
  = outcome (resize_image resize_nearest 50) (sample_run loaded_and_cropped) /\
  (outcome (resize_image resize_nearest 50) (sample_run loaded_and_cropped)
   = Val tt ->
   resized_image (exec (resize_image resize_nearest 50) s')
   = resized_image (exec (resize_image resize_nearest 50)
                      (sample_run loaded_and_cropped))).
Proof.
  apply (resize_depends_on_crop_only sample_imread resize_nearest
           edge_threshold sample_imwrite [Edge; Resize 200; Undo; Load "b.png"]
           (sample_run loaded_and_cropped)
           (mk_ndarray 2 [[(1, 1, 0); (2, 1, 0)]]) 50).
  - repeat (constructor; [reflexivity|]). constructor.
  - vm_compute. reflexivity.
Defined.

Lemma crop_depends_on_canvas_picture_only_witness :
  let s' := run sample_imread resize_nearest edge_threshold sample_imwrite
              [StartCrop 0 0; FinishCrop 2 2 4 3; Edge; Load "missing.png"]
              (sample_run [Load "a.png"]) in
  outcome (finish_crop 3 2 4 3) (exec (start_crop 1 1) s')
  = outcome (finish_crop 3 2 4 3)
      (exec (start_crop 1 1) (sample_run [Load "a.png"])) /\
  (outcome (finish_crop 3 2 4 3)
     (exec (start_crop 1 1) (sample_run [Load "a.png"])) = Val tt ->
   cropped_image (exec (finish_crop 3 2 4 3) (exec (start_crop 1 1) s'))
   = cropped_image
       (exec (finish_crop 3 2 4 3)
          (exec (start_crop 1 1) (sample_run [Load "a.png"])))).
Proof.
  apply (crop_depends_on_canvas_picture_only sample_imread resize_nearest
           edge_threshold sample_imwrite
           [StartCrop 0 0; FinishCrop 2 2 4 3; Edge; Load "missing.png"]
           (sample_run [Load "a.png"]) 1 1 3 2 4 3).
  repeat (constructor; [reflexivity|]). constructor.
Defined.

(** ** Scales that are whole numbers *)

(** An integer between two bounds one apart on each side of [2 * K]. *)
Lemma half_unit_exact (m K d : Z) :
  0 < d ->
  2 * (K * d) - d <= 2 * (m * d) <= 2 * (K * d) + d ->
  m = K.
Proof.
  intros D [L U].
  assert (L' : (2 * K - 1) * d <= (2 * m) * d) by lia.
  assert (U' : (2 * m) * d <= (2 * K + 1) * d) by lia.
  apply Z.mul_le_mono_pos_r in L'; [|exact D].
  apply Z.mul_le_mono_pos_r in U'; [|exact D].
  lia.
Qed.

(** [(k * d) / d] is the float [k], exactly. *)
Lemma truediv_multiple (k d : Z) :
  0 < k -> 0 < d -> k * d < 2 ^ 52 ->
  exists m e,
    PyFloat.truediv (k * d) d = Val (S754_finite false m e) /\
    2 ^ 52 <= Zpos m < 2 ^ 53 /\
    -900 <= e <= 0 /\
    Zpos m = k * 2 ^ (- e).
Proof.
  intros K D B.
  assert (KD : 0 < k * d) by (apply Z.mul_pos_pos; assumption).
  assert (D53 : d < 2 ^ 53).
  { assert (d <= k * d) by (rewrite <- (Z.mul_1_l d) at 1;
                            apply Z.mul_le_mono_nonneg_r; lia).
    assert (2 ^ 52 < 2 ^ 53) by reflexivity. lia. }
  destruct (truediv_near (k * d) d) as (m & e & E & BM & BE & _ & NB);
    [lia|lia|].
  exists m, e. split; [exact E|]. split; [exact BM|].
  pose proof (Zdigits2_pos (k * d) KD) as P1.
  pose proof (Zdigits2_le d 53 D D53 ltac:(lia)) as P2.
  split; [lia|].
  apply (half_unit_exact (Zpos m) (k * 2 ^ (- e)) d D).
  replace (k * 2 ^ (- e) * d) with (k * d * 2 ^ (- e)) by ring.
  exact NB.
Qed.

(** [int(x * f)] when the float [f] is the whole number [k]. *)
Lemma scaled_multiple (x k : Z) (m : positive) (e : Z) :
  0 <= x -> 0 < k -> x * k < 2 ^ 52 ->
  2 ^ 52 <= Zpos m < 2 ^ 53 -> -900 <= e <= 0 ->
  Zpos m = k * 2 ^ (- e) ->
  scaled x (S754_finite false m e) = Val (k * x).
Proof.
  intros X K B BM BE M.
  destruct (Z.eq_dec x 0) as [->|NZ].
  - rewrite scaled_zero. f_equal. lia.
  - set (Es := 2 ^ (- e)) in *.
    assert (PE : 0 < Es) by (apply Z.pow_pos_nonneg; lia).
    assert (X53 : x < 2 ^ 53).
    { assert (x <= x * k) by (rewrite <- (Z.mul_1_r x) at 1;
                              apply Z.mul_le_mono_nonneg_l; lia).
      assert (2 ^ 52 < 2 ^ 53) by reflexivity. lia. }
    destruct (scaled_near x m e) as (mp & ep & E & BP & EP & NB);
      [lia|exact BM|exact BE| |].
    + fold Es. rewrite M.
      replace (x * (k * Es)) with (x * k * Es) by ring.
      apply Z.mul_lt_mono_pos_r; assumption.
    + rewrite E. f_equal. fold Es in NB.
      set (Ep := 2 ^ (- ep)) in *.
      assert (PP : 0 < Ep) by (apply Z.pow_pos_nonneg; lia).
      assert (Q : Zpos mp = k * x * Ep).
      { apply (half_unit_exact (Zpos mp) (k * x * Ep) Es PE).
        rewrite M in NB.
        replace (k * x * Ep * Es) with (x * (k * Es) * Ep) by ring.
        exact NB. }
      rewrite Q. apply Z.div_mul. lia.
Qed.

(** One axis of the mapping when the image extent is [k] times the canvas
    extent: a canvas coordinate maps to exactly [k] times itself. *)
Lemma axis_integer_scale (k cv : Z) :
  0 < k -> 0 < cv -> k * cv < 2 ^ 52 ->
  exists f,
    PyFloat.truediv (k * cv) cv = Val f /\
    forall x, 0 <= x <= cv -> scaled x f = Val (k * x).
Proof.
  intros K C B.
  destruct (truediv_multiple k cv K C B) as (m & e & E & BM & BE & M).
  exists (S754_finite false m e). split; [exact E|].
  intros x X. apply (scaled_multiple x k m e); try assumption; [lia|].
  assert (x * k <= cv * k) by (apply Z.mul_le_mono_nonneg_r; lia). lia.
Qed.

(** X17: at a whole-number scale the mapping is exact.  When the image is
    [kx] times as wide and [ky] times as high as the canvas, a drag between
    two points of the canvas (its right and bottom borders included) maps
    to the rectangle whose corners are the ordered drag corners times [kx]
    and [ky]: the float arithmetic loses nothing. *)
Theorem crop_box_integer_scale (sx sy ex ey cw ch kx ky : Z) :
  0 < kx -> 0 < ky -> 0 < cw -> 0 < ch ->
  kx * cw < 2 ^ 52 -> ky * ch < 2 ^ 52 ->
  0 <= sx <= cw -> 0 <= ex <= cw -> 0 <= sy <= ch -> 0 <= ey <= ch ->
  crop_box sx sy ex ey (kx * cw) (ky * ch) cw ch
  = Val (mk_box (kx * Z.min sx ex) (ky * Z.min sy ey)
                (kx * Z.max sx ex) (ky * Z.max sy ey)).
Proof.
  intros KX KY CW CH BX BY SX EX SY EY. unfold crop_box.
  destruct (axis_integer_scale kx cw KX CW BX) as (fx & -> & AX).
  destruct (axis_integer_scale ky ch KY CH BY) as (fy & -> & AY).
  cbn [res_bind].
  rewrite (AX (Z.min sx ex)), (AY (Z.min sy ey)), (AX (Z.max sx ex)),
    (AY (Z.max sy ey)) by lia.
  reflexivity.
Qed.

Lemma crop_box_integer_scale_witness :
  crop_box 10 60 30 20 (2 * 400) (3 * 300) 400 300
  = Val (mk_box (2 * Z.min 10 30) (3 * Z.min 60 20)
                (2 * Z.max 10 30) (3 * Z.max 60 20)).
Proof.
  apply (crop_box_integer_scale 10 60 30 20 400 300 2 3); lia.
Defined.

(** ** The drag and the slice *)

Lemma crop_box_reversed (sx sy ex ey src_w src_h cw ch : Z) :
  crop_box ex ey sx sy src_w src_h cw ch
  = crop_box sx sy ex ey src_w src_h cw ch.
Proof.
  unfold crop_box.
  rewrite (Z.min_comm ex sx), (Z.min_comm ey sy), (Z.max_comm ex sx),
    (Z.max_comm ey sy).
  reflexivity.
Qed.

Lemma crop_box_other_diagonal (sx sy ex ey src_w src_h cw ch : Z) :
  crop_box sx ey ex sy src_w src_h cw ch
  = crop_box sx sy ex ey src_w src_h cw ch.
Proof.
  unfold crop_box. rewrite (Z.min_comm ey sy), (Z.max_comm ey sy).
  reflexivity.
Qed.

(** What a press at [(a, b)] followed by a release at [(x, y)] leaves,
    but for the recorded corners and the preview. *)
Lemma drag_result (s : state) (a b x y cw ch : Z) :
  let s' := exec (finish_crop x y cw ch) (exec (start_crop a b) s) in
  match display_image s with
  | None =>
      outcome (finish_crop x y cw ch) (exec (start_crop a b) s)
      = Exc AttributeError /\
      cropped_image s' = cropped_image s /\
      resized_image s' = resized_image s /\
      undo_stack s' = undo_stack s /\ redo_stack s' = redo_stack s
  | Some d =>
      match crop_box a b x y (shape1 d) (shape0 d) cw ch with
      | Exc e =>
          outcome (finish_crop x y cw ch) (exec (start_crop a b) s) = Exc e /\
          cropped_image s' = cropped_image s /\
          resized_image s' = resized_image s /\
          undo_stack s' = undo_stack s /\ redo_stack s' = redo_stack s
      | Val bx =>
          let c := crop d (img_y1 bx) (img_y2 bx) (img_x1 bx) (img_x2 bx) in
          outcome (finish_crop x y cw ch) (exec (start_crop a b) s) = Val tt /\
          cropped_image s' = Some c /\
          resized_image s' = Some c /\
          undo_stack s' = undo_stack s ++ [c] /\ redo_stack s' = []
      end
  end.
Proof.
  intros s'. subst s'.
  change (exec (start_crop a b) s) with (set_start a b s).
  unfold outcome, exec.
  destruct (display_image s) as [d|] eqn:D.
  - destruct (crop_box a b x y (shape1 d) (shape0 d) cw ch) as [bx|e] eqn:B.
    + destruct (finish_crop_returns (set_start a b s) x y cw ch d bx D B)
        as [v E].
      rewrite E. cbn. repeat split; reflexivity.
    + rewrite (finish_crop_raises (set_start a b s) x y cw ch d e D B).
      cbn. repeat split; reflexivity.
  - rewrite (finish_crop_no_image (set_start a b s) x y cw ch D).
    cbn. repeat split; reflexivity.
Qed.

(** X18: the direction of the drag does not matter.  Dragging from the
    release point back to the press point, or along the other diagonal of
    the same rectangle, ends the callback the same way and gives the same
    cropped image, working image and stacks. *)
Theorem crop_ignores_drag_direction (s : state) (a b x y cw ch : Z) :
  let forth := finish_crop x y cw ch (exec (start_crop a b) s) in
  let back := finish_crop a b cw ch (exec (start_crop x y) s) in
  let across := finish_crop x b cw ch (exec (start_crop a y) s) in
  (fst back = fst forth /\
   cropped_image (snd back) = cropped_image (snd forth) /\
   resized_image (snd back) = resized_image (snd forth) /\
   undo_stack (snd back) = undo_stack (snd forth) /\
   redo_stack (snd back) = redo_stack (snd forth)) /\
  (fst across = fst forth /\
   cropped_image (snd across) = cropped_image (snd forth) /\
   resized_image (snd across) = resized_image (snd forth) /\
   undo_stack (snd across) = undo_stack (snd forth) /\
   redo_stack (snd across) = redo_stack (snd forth)).
Proof.
  intros forth back across.
  pose proof (drag_result s a b x y cw ch) as F.
  pose proof (drag_result s x y a b cw ch) as B.
  pose proof (drag_result s a y x b cw ch) as A.
  cbn zeta in F, B, A.
  change (exec (finish_crop x y cw ch) (exec (start_crop a b) s))
    with (snd forth) in F.
  change (outcome (finish_crop x y cw ch) (exec (start_crop a b) s))
    with (fst forth) in F.
  change (exec (finish_crop a b cw ch) (exec (start_crop x y) s))
    with (snd back) in B.
  change (outcome (finish_crop a b cw ch) (exec (start_crop x y) s))
    with (fst back) in B.
  change (exec (finish_crop x b cw ch) (exec (start_crop a y) s))
    with (snd across) in A.
  change (outcome (finish_crop x b cw ch) (exec (start_crop a y) s))
    with (fst across) in A.
  destruct (display_image s) as [d|].
  - rewrite crop_box_reversed in B. rewrite crop_box_other_diagonal in A.
    destruct (crop_box a b x y (shape1 d) (shape0 d) cw ch) as [bx|e];
      destruct F as (F1 & F2 & F3 & F4 & F5);
      destruct B as (B1 & B2 & B3 & B4 & B5);
      destruct A as (A1 & A2 & A3 & A4 & A5);
      (split; (split; [congruence|]); (split; [congruence|]);
       (split; [congruence|]); split; congruence).
  - destruct F as (F1 & F2 & F3 & F4 & F5);
      destruct B as (B1 & B2 & B3 & B4 & B5);
      destruct A as (A1 & A2 & A3 & A4 & A5);
      (split; (split; [congruence|]); (split; [congruence|]);
       (split; [congruence|]); split; congruence).
Qed.

Lemma py_slice_length {A : Type} (l : list A) (i j : Z) :
  0 <= i <= j -> j <= Z.of_nat (length l) ->
  Z.of_nat (length (py_slice l i j)) = j - i.
Proof.
  intros I J. unfold py_slice, slice_len, slice_index.
  destruct (Z.ltb_spec i 0) as [?|_]; [lia|].
  destruct (Z.ltb_spec j 0) as [?|_]; [lia|].
  rewrite length_firstn, length_skipn. lia.
Qed.

(** X19: a crop on a canvas that shows the picture at its own size.  With
    the canvas as wide and as high as the picture (what [show_image]
    configures), a drag between two points of the canvas returns, and the
    cropped image is the slice of the picture between the ordered drag
    corners: as wide and as high as the drag. *)
Theorem finish_crop_at_picture_size
  (s : state) (d : ndarray) (x y : Z) :
  display_image s = Some d ->
  0 < shape1 d < 2 ^ 52 -> 0 < shape0 d < 2 ^ 52 ->
  0 <= start_x s <= shape1 d -> 0 <= x <= shape1 d ->
  0 <= start_y s <= shape0 d -> 0 <= y <= shape0 d ->
  let c := crop d (Z.min (start_y s) y) (Z.max (start_y s) y)
                  (Z.min (start_x s) x) (Z.max (start_x s) x) in
  outcome (finish_crop x y (shape1 d) (shape0 d)) s = Val tt /\
  cropped_image (exec (finish_crop x y (shape1 d) (shape0 d)) s) = Some c /\
  resized_image (exec (finish_crop x y (shape1 d) (shape0 d)) s) = Some c /\
  shape1 c = Z.abs (x - start_x s) /\
  shape0 c = Z.abs (y - start_y s).
Proof.
  intros D W H SX X SY Y c.
  assert (B : crop_box (start_x s) (start_y s) x y (shape1 d) (shape0 d)
                 (shape1 d) (shape0 d)
               = Val (mk_box (Z.min (start_x s) x) (Z.min (start_y s) y)
                             (Z.max (start_x s) x) (Z.max (start_y s) y))).
  { unfold crop_box.
    destruct (axis_integer_scale 1 (shape1 d)) as (fx & FX & AX);
      [lia|lia|lia|].
    destruct (axis_integer_scale 1 (shape0 d)) as (fy & FY & AY);
      [lia|lia|lia|].
    rewrite Z.mul_1_l in FX, FY. rewrite FX, FY. cbn [res_bind].
    rewrite (AX (Z.min (start_x s) x)), (AY (Z.min (start_y s) y)),
      (AX (Z.max (start_x s) x)), (AY (Z.max (start_y s) y)) by lia.
    cbn [res_bind]. rewrite !Z.mul_1_l. reflexivity. }
  destruct (finish_crop_returns s x y (shape1 d) (shape0 d) d _ D B) as [v E].
  cbn [img_x1 img_y1 img_x2 img_y2] in E. fold c in E.
  unfold outcome, exec. rewrite E. cbn.
  split; [reflexivity|]. split; [reflexivity|]. split; [reflexivity|].
  split.
  - unfold slice_len, slice_index.
    destruct (Z.ltb_spec (Z.min (start_x s) x) 0) as [?|_]; [lia|].
    destruct (Z.ltb_spec (Z.max (start_x s) x) 0) as [?|_]; [lia|].
    lia.
  - unfold shape0. cbn. rewrite length_map.
    rewrite py_slice_length; [lia|lia|]. unfold shape0 in *. lia.
Qed.

Lemma finish_crop_at_picture_size_witness :
  let s := sample_run [Load "a.png"; StartCrop 1 1] in
  let c := crop sample_image (Z.min (start_y s) 2) (Z.max (start_y s) 2)
             (Z.min (start_x s) 3) (Z.max (start_x s) 3) in
  outcome (finish_crop 3 2 (shape1 sample_image) (shape0 sample_image)) s
  = Val tt /\
  cropped_image
    (exec (finish_crop 3 2 (shape1 sample_image) (shape0 sample_image)) s)
  = Some c /\
  resized_image
    (exec (finish_crop 3 2 (shape1 sample_image) (shape0 sample_image)) s)
  = Some c /\
  shape1 c = Z.abs (3 - start_x s) /\
  shape0 c = Z.abs (2 - start_y s).
Proof.
  apply (finish_crop_at_picture_size
           (sample_run [Load "a.png"; StartCrop 1 1]) sample_image 3 2).
  - vm_compute. reflexivity.
  - vm_compute. split; reflexivity.
  - vm_compute. split; reflexivity.
  - vm_compute. split; discriminate.
  - vm_compute. split; discriminate.
  - vm_compute. split; discriminate.
  - vm_compute. split; discriminate.
Defined.

(** ** Undo and redo, many steps *)

Section Many.

Variable imread : string -> option ndarray.
Variable cv2_resize : ndarray -> Z -> Z -> option ndarray.
Variable edge_bgr : ndarray -> option ndarray.
Variable imwrite : string -> ndarray -> option bool.

Lemma run_cons (ev : event) (evs : list event) (s : state) :
  run imread cv2_resize edge_bgr imwrite (ev :: evs) s
  = run imread cv2_resize edge_bgr imwrite evs
      (exec (handle imread cv2_resize edge_bgr imwrite ev) s).
Proof. reflexivity. Qed.

(** As many undos as there are entries above [t] bring [t] to the top. *)
Lemma undo_many (l : list ndarray) :
  forall (s : state) (u : list ndarray) (t : ndarray),
    undo_stack s = (u ++ [t]) ++ l ->
    let s' := run imread cv2_resize edge_bgr imwrite (repeat Undo (length l)) s in
    undo_stack s' = u ++ [t] /\
    redo_stack s' = redo_stack s ++ rev l /\
    (l <> [] -> resized_image s' = Some t).
Proof.
  induction l as [|x l IH] using rev_ind; intros s u t U.
  - cbn. rewrite app_nil_r in *. split; [exact U|].
    split; [reflexivity|]. intros N. contradiction N. reflexivity.
  - rewrite length_app, Nat.add_1_r. cbn [length repeat]. rewrite run_cons.
    cbn [handle].
    assert (D : exists L below, (u ++ [t]) ++ l = L ++ [below] /\
                                (l = [] -> below = t)).
    { destruct (snoc_cases l) as [->|(l' & y & ->)].
      - exists u, t. rewrite app_nil_r. split; [reflexivity|trivial].
      - exists ((u ++ [t]) ++ l'), y. rewrite app_assoc.
        split; [reflexivity|]. intros E. destruct l'; discriminate. }
    destruct D as (L & below & D & DB).
    assert (U' : undo_stack s = L ++ [below; x]).
    { rewrite U, app_assoc, D, <- app_assoc. reflexivity. }
    destruct (undo_step s L below x U') as [v E].
    assert (S1 : undo_stack (exec undo s) = (u ++ [t]) ++ l /\
                 redo_stack (exec undo s) = redo_stack s ++ [x] /\
                 resized_image (exec undo s) = Some below).
    { unfold exec. rewrite E, D. cbn. repeat split; reflexivity. }
    destruct S1 as (U1 & R1 & W1).
    specialize (IH (exec undo s) u t U1). cbn zeta in IH.
    destruct IH as (I1 & I2 & I3).
    split; [exact I1|]. split.
    + rewrite I2, R1, rev_app_distr, <- app_assoc. reflexivity.
    + intros _. destruct l as [|y l'].
      * cbn. rewrite W1, (DB eq_refl). reflexivity.
      * apply I3. discriminate.
Qed.

(** As many redos as were undone put the entries back. *)
Lemma redo_many (l : list ndarray) :
  forall (s : state) (r : list ndarray),
    redo_stack s = r ++ rev l ->
    let s' := run imread cv2_resize edge_bgr imwrite (repeat Redo (length l)) s in
    redo_stack s' = r /\
    undo_stack s' = undo_stack s ++ l /\
    (forall top, py_last l = Some top -> resized_image s' = Some top).
Proof.
  induction l as [|x l IH]; intros s r R.
  - cbn in *. rewrite app_nil_r in *. split; [exact R|].
    split; [reflexivity|]. discriminate.
  - cbn [length repeat]. rewrite run_cons. cbn [handle].
    assert (R' : redo_stack s = (r ++ rev l) ++ [x])
      by (rewrite R; cbn [rev]; apply app_assoc).
    destruct (redo_step s (r ++ rev l) x R') as [v E].
    assert (S1 : redo_stack (exec redo s) = r ++ rev l /\
                 undo_stack (exec redo s) = undo_stack s ++ [x] /\
                 resized_image (exec redo s) = Some x).
    { unfold exec. rewrite E. cbn. repeat split; reflexivity. }
    destruct S1 as (R1 & U1 & W1).
    specialize (IH (exec redo s) r R1). cbn zeta in IH.
    destruct IH as (I1 & I2 & I3).
    split; [exact I1|]. split.
    + rewrite I2, U1, <- app_assoc. reflexivity.
    + intros top T. destruct l as [|y l'].
      * cbn in T. injection T as <-. cbn. exact W1.
      * apply I3. exact T.
Qed.

(** X20: undoing several steps and redoing as many.  With [n] entries above
    an entry [t] of the undo stack, [n] undos make [t] the working image
    and leave it on top; [n] redos after them give back both stacks, with
    the old top as the working image. *)
Theorem undo_many_then_redo_many
  (s : state) (u l : list ndarray) (t top : ndarray) :
  undo_stack s = u ++ t :: l ++ [top] ->
  let n := S (length l) in
  let s1 := run imread cv2_resize edge_bgr imwrite (repeat Undo n) s in
  let s2 := run imread cv2_resize edge_bgr imwrite (repeat Redo n) s1 in
  (resized_image s1 = Some t /\ py_last (undo_stack s1) = Some t) /\
  undo_stack s2 = undo_stack s /\
  redo_stack s2 = redo_stack s /\
  resized_image s2 = Some top.
Proof.
  intros U n s1 s2.
  assert (N : n = length (l ++ [top]))
    by (subst n; rewrite length_app, Nat.add_1_r; reflexivity).
  assert (U' : undo_stack s = (u ++ [t]) ++ (l ++ [top]))
    by (rewrite U, <- app_assoc; reflexivity).
  destruct (undo_many (l ++ [top]) s u t U') as (A1 & A2 & A3).
  rewrite <- N in A1, A2, A3. fold s1 in A1, A2, A3.
  destruct (redo_many (l ++ [top]) s1 (redo_stack s) A2) as (B1 & B2 & B3).
  rewrite <- N in B1, B2, B3. fold s2 in B1, B2, B3.
  split; [split|split; [|split]].
  - apply A3. destruct l; discriminate.
  - rewrite A1. apply py_last_snoc.
  - rewrite B2, A1, U'. reflexivity.
  - exact B1.
  - apply B3, py_last_snoc.
Qed.

(** X21: apart from a load and a mouse release, a callback that raises
    leaves the state exactly as it was: a resize, a filter or a save that
    OpenCV rejects changes no image and records nothing in the history. *)
Theorem raising_callback_changes_nothing
  (ev : event) (s : state) (e : exn) :
  outcome (handle imread cv2_resize edge_bgr imwrite ev) s = Exc e ->
  crops ev = false ->
  (forall path, ev <> Load path) ->
  exec (handle imread cv2_resize edge_bgr imwrite ev) s = s.
Proof.
  intros O C L.
  destruct ev as [path|x y|x y|x y cw ch|value|path| | |];
    cbn [handle] in *.
  - contradiction (L path). reflexivity.
  - discriminate.
  - reflexivity.
  - discriminate.
  - destruct (resize_image_cases cv2_resize value s)
      as [[r E]|(c & resized & w & h & _ & _ & E)];
      unfold outcome, exec in *; rewrite E in *; [reflexivity|discriminate].
  - apply save_image_state.
  - destruct (apply_edge_cases edge_bgr s) as [[r E]|(r & edges & _ & _ & E)];
      unfold outcome, exec in *; rewrite E in *; [reflexivity|discriminate].
  - destruct (undo_cases s) as [E|(l & below & top & _ & E)];
      unfold outcome, exec in *; rewrite E in *; [reflexivity|discriminate].
  - destruct (redo_cases s) as [E|(l & x & _ & E)];
      unfold outcome, exec in *; rewrite E in *; [reflexivity|discriminate].
Qed.

End Many.

Lemma undo_many_then_redo_many_witness :
  let s := sample_run (loaded_and_cropped ++ [Edge; Edge]) in
  let s1 := run sample_imread resize_nearest edge_threshold sample_imwrite
              (repeat Undo 2) s in
  let s2 := run sample_imread resize_nearest edge_threshold sample_imwrite
              (repeat Redo 2) s1 in
  (resized_image s1 = Some (mk_ndarray 2 [[(1, 1, 0); (2, 1, 0)]]) /\
   py_last (undo_stack s1) = Some (mk_ndarray 2 [[(1, 1, 0); (2, 1, 0)]])) /\
  undo_stack s2 = undo_stack s /\
  redo_stack s2 = redo_stack s /\
  resized_image s2 = Some (mk_ndarray 2 [[(255, 255, 255); (255, 255, 255)]]).
Proof.
  apply (undo_many_then_redo_many sample_imread resize_nearest edge_threshold sample_imwrite
           (sample_run (loaded_and_cropped ++ [Edge; Edge]))
           [sample_image]
           [mk_ndarray 2 [[(1, 1, 0); (2, 1, 0)]]]
           (mk_ndarray 2 [[(1, 1, 0); (2, 1, 0)]])
           (mk_ndarray 2 [[(255, 255, 255); (255, 255, 255)]])).
  vm_compute. reflexivity.
Defined.

Lemma raising_callback_changes_nothing_witness :
  exec (handle sample_imread resize_nearest edge_threshold sample_imwrite
          (Save "out.png"))
    (sample_run [Load "a.png"; StartCrop 1 1; FinishCrop 1 1 4 3])
  = sample_run [Load "a.png"; StartCrop 1 1; FinishCrop 1 1 4 3].
Proof.
  apply (raising_callback_changes_nothing sample_imread resize_nearest
           edge_threshold sample_imwrite (Save "out.png")
           (sample_run [Load "a.png"; StartCrop 1 1; FinishCrop 1 1 4 3])
           Cv2Error).
  - vm_compute. reflexivity.
  - reflexivity.
  - discriminate.
Defined.
